(** * Petz backend: the session and credential lifecycle

    A shallow embedding of [src/db.py] (the [User] model and its session
    methods) and of the authentication routes of [src/app.py], with the
    properties of the session lifecycle proved over it. *)

From Stdlib Require Import ZArith List Bool String Ascii Lia.
From Stdlib Require Import Strings.Byte.
From Stdlib Require Import Floats.PrimFloat.
Import ListNotations.

Local Open Scope Z_scope.
Set Warnings "-register-all".

(** ** Python data *)

(** A Python [bytes] object. *)
Definition bytes := list byte.

(** A Python [str]: its sequence of Unicode code points.  Lone surrogates
    (U+D800..U+DFFF) are legal members of a [str], as [json.loads] produces
    them from an escaped surrogate. *)
Definition pystr := list N.

(** A [str] literal of the source, one code point per character. *)
Definition lit (s : string) : pystr :=
  map (fun c => N_of_ascii c) (list_ascii_of_string s).

Definition pystr_eqb (a b : pystr) : bool :=
  if list_eq_dec N.eq_dec a b then true else false.

Definition byte_of_Z (z : Z) : byte :=
  match Byte.of_N (Z.to_N (z mod 256)) with
  | Some b => b
  | None => x00
  end.

Definition Z_of_byte (b : byte) : Z := Z.of_N (Byte.to_N b).

(** ** SHA-1, as [hashlib.sha1(...).hexdigest()] computes it *)

Module Sha1.

Definition w32 (x : Z) : Z := x mod 2 ^ 32.

Definition rotl (n x : Z) : Z :=
  w32 (Z.lor (Z.shiftl x n) (Z.shiftr x (32 - n))).

Definition be_bytes (width : nat) (x : Z) : list Z :=
  map (fun i => Z.land (Z.shiftr x (8 * Z.of_nat i)) 255)
      (rev (seq 0 width)).

(** Padding: a one bit, zeros up to 56 modulo 64, the bit length on 64 bits. *)
Definition pad (msg : list Z) : list Z :=
  let len := Z.of_nat (List.length msg) in
  msg ++ [128] ++ repeat 0 (Z.to_nat ((55 - len) mod 64))
      ++ be_bytes 8 (8 * len).

Fixpoint words (fuel : nat) (bs : list Z) : list Z :=
  match fuel, bs with
  | S fuel', b0 :: b1 :: b2 :: b3 :: rest =>
      (Z.shiftl b0 24 + Z.shiftl b1 16 + Z.shiftl b2 8 + b3)
        :: words fuel' rest
  | _, _ => []
  end.

(** The message schedule: [window] holds the last sixteen words. *)
Fixpoint schedule (n : nat) (window : list Z) : list Z :=
  match n with
  | O => []
  | S n' =>
      let w := rotl 1 (Z.lxor (Z.lxor (nth 13 window 0) (nth 8 window 0))
                              (Z.lxor (nth 2 window 0) (nth 0 window 0))) in
      w :: schedule n' (tl window ++ [w])
  end.

Record regs := mkRegs { ra : Z; rb : Z; rc : Z; rd : Z; re : Z }.

Definition f_k (t : nat) (b c d : Z) : Z * Z :=
  if (t <? 20)%nat then
    (Z.lor (Z.land b c) (Z.land (Z.lxor b 4294967295) d), 1518500249)
  else if (t <? 40)%nat then
    (Z.lxor (Z.lxor b c) d, 1859775393)
  else if (t <? 60)%nat then
    (Z.lor (Z.lor (Z.land b c) (Z.land b d)) (Z.land c d), 2400959708)
  else
    (Z.lxor (Z.lxor b c) d, 3395469782).

Definition round (r : regs) (tw : nat * Z) : regs :=
  let '(t, w) := tw in
  let '(f, k) := f_k t (rb r) (rc r) (rd r) in
  let temp := w32 (rotl 5 (ra r) + f + re r + k + w) in
  mkRegs temp (ra r) (rotl 30 (rb r)) (rc r) (rd r).

Definition compress (h : regs) (block : list Z) : regs :=
  let w16 := words 16 block in
  let w80 := w16 ++ schedule 64 w16 in
  let r := fold_left round (combine (seq 0 80) w80) h in
  mkRegs (w32 (ra h + ra r)) (w32 (rb h + rb r)) (w32 (rc h + rc r))
         (w32 (rd h + rd r)) (w32 (re h + re r)).

Fixpoint blocks (fuel : nat) (h : regs) (bs : list Z) : regs :=
  match fuel, bs with
  | S fuel', _ :: _ => blocks fuel' (compress h (firstn 64 bs)) (skipn 64 bs)
  | _, _ => h
  end.

Definition init : regs :=
  mkRegs 1732584193 4023233417 2562383102 271733878 3285377520.

Definition digest (msg : bytes) : list Z :=
  let p := pad (map Z_of_byte msg) in
  let h := blocks (List.length p) init p in
  flat_map (be_bytes 4) [ra h; rb h; rc h; rd h; re h].

Definition hex_digit (z : Z) : N :=
  if z <? 10 then Z.to_N (48 + z) else Z.to_N (87 + z).

Definition hexdigest (msg : bytes) : pystr :=
  flat_map (fun b => [hex_digit (Z.shiftr b 4); hex_digit (Z.land b 15)])
           (digest msg).

End Sha1.

(** ** Exceptions and results *)

Inductive exn :=
| UnicodeEncodeError
| ValueError (msg : string)
| TypeError (msg : string)
| IntegrityError.

Inductive result (A : Type) :=
| Ok (a : A)
| Raise (e : exn).

Arguments Ok {A} a.
Arguments Raise {A} e.

Definition bind {A B : Type} (r : result A) (k : A -> result B) : result B :=
  match r with
  | Ok a => k a
  | Raise e => Raise e
  end.

Notation "x <- r ;; k" := (bind r (fun x => k))
  (at level 61, r at next level, right associativity).

(** ** [str.encode("utf8")] *)

Definition utf8_code_point (c : N) : result bytes :=
  let z := Z.of_N c in
  let cont (sh : Z) := byte_of_Z (Z.lor 128 (Z.land (Z.shiftr z sh) 63)) in
  if z <? 128 then Ok [byte_of_Z z]
  else if z <? 2048 then Ok [byte_of_Z (Z.lor 192 (Z.shiftr z 6)); cont 0]
  else if (55296 <=? z) && (z <=? 57343) then Raise UnicodeEncodeError
  else if z <? 65536 then
    Ok [byte_of_Z (Z.lor 224 (Z.shiftr z 12)); cont 6; cont 0]
  else Ok [byte_of_Z (Z.lor 240 (Z.shiftr z 18)); cont 12; cont 6; cont 0].

Fixpoint utf8_encode (s : pystr) : result bytes :=
  match s with
  | [] => Ok []
  | c :: s' =>
      b <- utf8_code_point c ;;
      bs <- utf8_encode s' ;;
      Ok (b ++ bs)%list
  end.

(** ** Values handed to [json.dumps] *)

Inductive json :=
| JNull
| JBool (b : bool)
| JInt (z : Z)
| JFloat (f : float)
| JStr (s : pystr)
| JDateTime (t : Z)
| JList (l : list json)
| JDict (kv : list (string * json)).

Definition opt_json {A : Type} (f : A -> json) (o : option A) : json :=
  match o with
  | Some a => f a
  | None => JNull
  end.

Definition keys (j : json) : list string :=
  match j with
  | JDict kv => map fst kv
  | _ => []
  end.

Fixpoint dict_get (k : string) (kv : list (string * json)) : option json :=
  match kv with
  | [] => None
  | (k', v) :: kv' => if String.eqb k k' then Some v else dict_get k kv'
  end.

Definition get (k : string) (j : json) : option json :=
  match j with
  | JDict kv => dict_get k kv
  | _ => None
  end.

(** ** The models of [db.py] *)

(** A [datetime.datetime]: microseconds on the time line. *)
Definition datetime := Z.

(** [datetime.timedelta(days=n)]. *)
Definition timedelta_days (n : Z) : Z := n * 86400000000.

Record Review := mkReview {
  review_id : option Z;
  rating : Z;
  text : pystr;
  date : datetime;
  reviewee_id : Z
}.

(** A category, as far as [User.serialize] reads it: the back references
    [hosts] and [owners] are the two association tables seen from the other
    side. *)
Record Category := mkCategory {
  category_id : option Z;
  description : pystr
}.

Record User := mkUser {
  id : option Z;
  name : pystr;
  username : pystr;
  bio : option pystr;
  contact : pystr;
  overall_rating : option float;
  reviews : list Review;
  host : option bool;
  owner : option bool;
  categories_h : list Category;
  categories_o : list Category;
  available : option bool;
  email : pystr;
  password_digest : bytes;
  session_token : pystr;
  session_expiration : datetime;
  update_token : pystr
}.

(** The third-party [bcrypt] package, as far as the source calls it.  Its
    functions may raise ([ValueError] on a salt it cannot parse, for one), so
    they return a [result]. *)
Class Bcrypt := {
  (** [bcrypt.gensalt(rounds=r)], from the sixteen random bytes it draws. *)
  gensalt : Z -> bytes -> bytes;
  (** [bcrypt.hashpw(password, salt)]. *)
  hashpw : bytes -> bytes -> result bytes;
  (** [bcrypt.checkpw(password, hashed_password)]. *)
  checkpw : bytes -> bytes -> result bool
}.

(** What one call of [renew_session] reads from the outside world, in the
    order of the reads: [os.urandom(64)], [datetime.datetime.now()],
    [os.urandom(64)]. *)
Record Draws := mkDraws {
  urandom_session : bytes;
  clock : datetime;
  urandom_update : bytes
}.

Module Review.

Definition serialize (self : Review) : json :=
  JDict [ ("id", opt_json JInt (review_id self));
          ("rating", JInt (rating self));
          ("text", JStr (text self));
          ("date", JDateTime (date self));
          ("reviewee_id", JInt (reviewee_id self)) ]%string.

End Review.

Module User.

(** The keyword arguments [register_account] passes on to [User(...)]. *)
Record kwargs := mkKwargs {
  kw_email : pystr;
  kw_password : pystr;
  kw_name : pystr;
  kw_username : pystr;
  kw_bio : option pystr;
  kw_contact : pystr;
  kw_host : option bool;
  kw_owner : option bool;
  kw_available : option bool
}.

Definition serialize (self : User) : json :=
  JDict [ ("id", opt_json JInt (id self));
          ("name", JStr (name self));
          ("username", JStr (username self));
          ("bio", opt_json JStr (bio self));
          ("contact", JStr (contact self));
          ("overall_rating", opt_json JFloat (overall_rating self));
          ("reviews", JList (map Review.serialize (reviews self)));
          ("host", opt_json JBool (host self));
          ("owner", opt_json JBool (owner self));
          ("categories_h",
            JList (map (fun c => JStr (description c)) (categories_h self)));
          ("categories_o",
            JList (map (fun c => JStr (description c)) (categories_o self)));
          ("available", opt_json JBool (available self)) ]%string.

Definition _urlsafe_base_64 (urandom64 : bytes) : pystr :=
  Sha1.hexdigest urandom64.

Definition renew_session (self : User) (d : Draws) : User :=
  mkUser (id self) (name self) (username self) (bio self) (contact self)
         (overall_rating self) (reviews self) (host self) (owner self)
         (categories_h self) (categories_o self) (available self)
         (email self) (password_digest self)
         (_urlsafe_base_64 (urandom_session d))
         (clock d + timedelta_days 1)
         (_urlsafe_base_64 (urandom_update d)).

(** [salt16] is the randomness [bcrypt.gensalt] draws.  The new object has no
    [id] (nor rating, reviews, categories) before it is flushed; its three
    session attributes do not exist until [renew_session] assigns them. *)
Definition __init__ `{Bcrypt} (kw : kwargs) (salt16 : bytes) (d : Draws)
  : result User :=
  pw <- utf8_encode (kw_password kw) ;;
  digest <- hashpw pw (gensalt 13 salt16) ;;
  Ok (renew_session
        (mkUser None (kw_name kw) (kw_username kw) (kw_bio kw) (kw_contact kw)
                None [] (kw_host kw) (kw_owner kw) [] [] (kw_available kw)
                (kw_email kw) digest [] 0 [])
        d).

Definition verify_password `{Bcrypt} (self : User) (password : pystr)
  : result bool :=
  pw <- utf8_encode password ;;
  checkpw pw (password_digest self).

Definition verify_session_token (self : User) (token : pystr) (now : datetime)
  : bool :=
  pystr_eqb token (session_token self) && (now <? session_expiration self).

Definition verify_update_token (self : User) (token : pystr) : bool :=
  pystr_eqb token (update_token self).

End User.

(** The assignment [user.session_expiration = t]. *)
Definition set_session_expiration (user : User) (t : datetime) : User :=
  mkUser (id user) (name user) (username user) (bio user) (contact user)
         (overall_rating user) (reviews user) (host user) (owner user)
         (categories_h user) (categories_o user) (available user)
         (email user) (password_digest user)
         (session_token user) t (update_token user).

(** The assignments [user.bio = b], [user.contact = c], [user.host = h],
    [user.owner = o] and [user.available = a] of [update_user_by_id]. *)
Definition set_bio (user : User) (b : pystr) : User :=
  mkUser (id user) (name user) (username user) (Some b) (contact user)
         (overall_rating user) (reviews user) (host user) (owner user)
         (categories_h user) (categories_o user) (available user)
         (email user) (password_digest user)
         (session_token user) (session_expiration user) (update_token user).

Definition set_contact (user : User) (c : pystr) : User :=
  mkUser (id user) (name user) (username user) (bio user) c
         (overall_rating user) (reviews user) (host user) (owner user)
         (categories_h user) (categories_o user) (available user)
         (email user) (password_digest user)
         (session_token user) (session_expiration user) (update_token user).

Definition set_host (user : User) (h : bool) : User :=
  mkUser (id user) (name user) (username user) (bio user) (contact user)
         (overall_rating user) (reviews user) (Some h) (owner user)
         (categories_h user) (categories_o user) (available user)
         (email user) (password_digest user)
         (session_token user) (session_expiration user) (update_token user).

Definition set_owner (user : User) (o : bool) : User :=
  mkUser (id user) (name user) (username user) (bio user) (contact user)
         (overall_rating user) (reviews user) (host user) (Some o)
         (categories_h user) (categories_o user) (available user)
         (email user) (password_digest user)
         (session_token user) (session_expiration user) (update_token user).

Definition set_available (user : User) (a : bool) : User :=
  mkUser (id user) (name user) (username user) (bio user) (contact user)
         (overall_rating user) (reviews user) (host user) (owner user)
         (categories_h user) (categories_o user) (Some a)
         (email user) (password_digest user)
         (session_token user) (session_expiration user) (update_token user).

(** ** The [user] table *)

(** The rows of the table, in row order. *)
Definition Store := list User.

Definition id_eqb (a b : option Z) : bool :=
  match a, b with
  | Some x, Some y => x =? y
  | None, None => true
  | _, _ => false
  end.

(** Flushing a changed object rewrites the row with its primary key. *)
Definition update_row (st : Store) (user : User) : Store :=
  map (fun row => if id_eqb (id row) (id user) then user else row) st.

(** Flushing a deleted object removes the row with its primary key (and,
    with it, the reviews and category memberships the record carries). *)
Definition delete_row (st : Store) (user : User) : Store :=
  filter (fun row => negb (id_eqb (id row) (id user))) st.

(** The [unique=True] columns that [renew_session] rewrites: another row that
    holds one of the new values makes the commit fail. *)
Definition token_clash (st : Store) (user : User) : bool :=
  existsb (fun row =>
             negb (id_eqb (id row) (id user))
             && (pystr_eqb (session_token row) (session_token user)
                 || pystr_eqb (update_token row) (update_token user)))
          st.

(** The [unique=True] columns of a new row. *)
Definition insert_clash (st : Store) (user : User) : bool :=
  existsb (fun row =>
             pystr_eqb (email row) (email user)
             || pystr_eqb (session_token row) (session_token user)
             || pystr_eqb (update_token row) (update_token user))
          st.

(** The key an [autoincrement] column gives the next row. *)
Definition next_id (st : Store) : Z :=
  1 + fold_right (fun row m => match id row with
                               | Some i => Z.max i m
                               | None => m
                               end) 0 st.

Definition with_id (user : User) (i : Z) : User :=
  mkUser (Some i) (name user) (username user) (bio user) (contact user)
         (overall_rating user) (reviews user) (host user) (owner user)
         (categories_h user) (categories_o user) (available user)
         (email user) (password_digest user)
         (session_token user) (session_expiration user) (update_token user).

(** The constraints of the schema: the primary key and the three
    [unique=True] columns. *)
Record wf (st : Store) : Prop := mkWf {
  wf_ids : forall row, In row st -> id row <> None;
  wf_key : NoDup (map id st);
  wf_email : NoDup (map email st);
  wf_session_token : NoDup (map session_token st);
  wf_update_token : NoDup (map update_token st)
}.

(** The executable form of [wf]. *)
Fixpoint nodupb {A : Type} (eqb : A -> A -> bool) (l : list A) : bool :=
  match l with
  | [] => true
  | a :: l' => negb (existsb (eqb a) l') && nodupb eqb l'
  end.

Definition wfb (st : Store) : bool :=
  forallb (fun row => match id row with Some _ => true | None => false end) st
  && nodupb id_eqb (map id st)
  && nodupb pystr_eqb (map email st)
  && nodupb pystr_eqb (map session_token st)
  && nodupb pystr_eqb (map update_token st).

(** ** [users_dao]: the data access functions [app.py] imports *)

Module users_dao.

(** Modelled from the spec: [users_dao.get_user_by_email], the spec's
    [find_by_email(email) -> identity | None]. *)
Definition get_user_by_email (st : Store) (e : pystr) : option User :=
  find (fun row => pystr_eqb (email row) e) st.

(** Modelled from the spec: [users_dao.get_user_by_session_token], the spec's
    [find_by_session_token(token) -> identity | None], a lookup by exact
    match on [session_token]. *)
Definition get_user_by_session_token (st : Store) (token : pystr)
  : option User :=
  find (fun row => pystr_eqb (session_token row) token) st.

(** Modelled from the spec: [users_dao.get_user_by_update_token], the spec's
    [find_by_update_token(token) -> identity | None], a lookup by exact match
    on [update_token]. *)
Definition get_user_by_update_token (st : Store) (token : pystr)
  : option User :=
  find (fun row => pystr_eqb (update_token row) token) st.

(** Modelled from the spec: [users_dao.verify_credentials], which looks the
    identity up by email and fails if it is not found or [verify_password]
    fails.  It returns the pair [(success, user)] that [login] unpacks. *)
Definition verify_credentials `{Bcrypt} (st : Store) (e password : pystr)
  : result (bool * option User) :=
  match get_user_by_email st e with
  | None => Ok (false, None)
  | Some user =>
      ok <- User.verify_password user password ;;
      Ok (ok, Some user)
  end.

(** Modelled from the spec: [users_dao.create_user], which fails if the email
    is already present and otherwise builds the [User] (hashing the password
    and issuing the first token triple) and persists it; the insert fails on
    a collision of email or token.  It returns the pair [(created, user)]
    that [register_account] unpacks, and the table. *)
Definition create_user `{Bcrypt} (st : Store) (kw : User.kwargs)
    (salt16 : bytes) (d : Draws)
  : result (bool * option User * Store) :=
  match get_user_by_email st (User.kw_email kw) with
  | Some user => Ok (false, Some user, st)
  | None =>
      user <- User.__init__ kw salt16 d ;;
      if insert_clash st user then Raise IntegrityError
      else
        let row := with_id user (next_id st) in
        Ok (true, Some row, (st ++ [row])%list)
  end.

(** Modelled from the spec: [users_dao.renew_session], which looks the
    identity up by exact match on [update_token], returns nothing if there is
    no match, and otherwise renews its session, persists and returns it; the
    uniqueness of the tokens is enforced when it persists. *)
Definition renew_session (st : Store) (token : pystr) (d : Draws)
  : result (option User * Store) :=
  match get_user_by_update_token st token with
  | None => Ok (None, st)
  | Some user =>
      let user' := User.renew_session user d in
      if token_clash st user' then Raise IntegrityError
      else Ok (Some user', update_row st user')
  end.

End users_dao.

(** ** The routes of [app.py] *)

Module app.

(** What a route returns: the value it hands to [json.dumps] and the status
    code (200 where the source gives none). *)
Definition response := (json * Z)%type.

Definition error (msg : string) : json :=
  JDict [("error"%string, JStr (lit msg))].

Definition message (msg : string) : json :=
  JDict [("message"%string, JStr (lit msg))].

Fixpoint starts_with (prefix s : pystr) : bool :=
  match prefix, s with
  | [], _ => true
  | p :: prefix', c :: s' => N.eqb p c && starts_with prefix' s'
  | _ :: _, [] => false
  end.

(** [s.replace("Bearer", "")]: [skip] counts the characters of an occurrence
    still to drop. *)
Fixpoint replace_bearer (skip : nat) (s : pystr) : pystr :=
  match s with
  | [] => []
  | c :: s' =>
      match skip with
      | S k => replace_bearer k s'
      | O => if starts_with (lit "Bearer") s then replace_bearer 5 s'
             else c :: replace_bearer 0 s'
      end
  end.

(** [str.isspace] on one character. *)
Definition isspace (c : N) : bool :=
  let z := Z.of_N c in
  ((9 <=? z) && (z <=? 13)) || ((28 <=? z) && (z <=? 32))
  || (z =? 133) || (z =? 160) || (z =? 5760)
  || ((8192 <=? z) && (z <=? 8202))
  || (z =? 8232) || (z =? 8233) || (z =? 8239) || (z =? 8287) || (z =? 12288).

Fixpoint lstrip (s : pystr) : pystr :=
  match s with
  | c :: s' => if isspace c then lstrip s' else s
  | [] => []
  end.

Definition strip (s : pystr) : pystr := rev (lstrip (rev (lstrip s))).

(** The pair [(False, error)] is [inl error], the pair [(True, token)] is
    [inr token]. *)
Definition extract_token (auth_header : option pystr) : json + pystr :=
  match auth_header with
  | None => inl (error "Missing auth header")
  | Some h =>
      match strip (replace_bearer 0 h) with
      | [] => inl (error "Invalid auth header")
      | bearer_token => inr bearer_token
      end
  end.

(** The three entries every token response carries; [JDateTime] is the
    [str(...)] of the expiration. *)
Definition tokens_body (user : User) : list (string * json) :=
  [ ("session_token", JStr (session_token user));
    ("session_expiration", JDateTime (session_expiration user));
    ("update_token", JStr (update_token user)) ]%string.

(** The body of a registration, as the nine [body.get] calls read it. *)
Record register_body := mkRegisterBody {
  b_email : option pystr;
  b_password : option pystr;
  b_name : option pystr;
  b_username : option pystr;
  b_bio : option pystr;
  b_contact : option pystr;
  b_host : option bool;
  b_owner : option bool;
  b_available : option bool
}.

Definition register_account `{Bcrypt} (st : Store) (body : register_body)
    (salt16 : bytes) (d : Draws)
  : result (response * Store) :=
  match b_email body, b_password body with
  | Some e, Some password =>
      match b_name body, b_username body, b_contact body with
      | Some n, Some un, Some c =>
          r <- users_dao.create_user st
                 (User.mkKwargs e password n un (b_bio body) c (b_host body)
                                (b_owner body) (b_available body))
                 salt16 d ;;
          match r with
          | (true, Some user, st') =>
              Ok ((JDict (("user"%string, User.serialize user)
                            :: tokens_body user), 201), st')
          | (_, _, st') =>
              Ok ((error "Incorrect email or password", 400), st')
          end
      | _, _, _ => Ok ((error "Missing input", 400), st)
      end
  | _, _ => Ok ((error "Invalid email or password", 400), st)
  end.

Definition login `{Bcrypt} (st : Store) (e password : option pystr)
  : result (response * Store) :=
  match e, password with
  | Some e, Some password =>
      r <- users_dao.verify_credentials st e password ;;
      match r with
      | (true, Some user) => Ok ((JDict (tokens_body user), 200), st)
      | (_, _) => Ok ((error "Incorrect email or password", 400), st)
      end
  | _, _ => Ok ((error "Invalid email or password", 400), st)
  end.

Definition update_session (st : Store) (auth_header : option pystr)
    (d : Draws)
  : result (response * Store) :=
  match extract_token auth_header with
  | inl err => Ok ((err, 200), st)
  | inr update_token =>
      r <- users_dao.renew_session st update_token d ;;
      match r with
      | (None, st') => Ok ((error "Invalid update token", 200), st')
      | (Some user, st') => Ok ((JDict (tokens_body user), 200), st')
      end
  end.

Definition secret_message (st : Store) (auth_header : option pystr)
    (now : datetime)
  : response :=
  match extract_token auth_header with
  | inl err => (err, 200)
  | inr token =>
      match users_dao.get_user_by_session_token st token with
      | None => (error "Invalid session token", 200)
      | Some user =>
          if User.verify_session_token user token now
          then (error "Invalid session token", 200)
          else (message "Wow we implemented session token!!", 200)
      end
  end.

(** [now_check] is the clock [verify_session_token] reads, [now_set] the later
    reading stored as the expiration. *)
Definition logout (st : Store) (auth_header : option pystr)
    (now_check now_set : datetime)
  : response * Store :=
  match extract_token auth_header with
  | inl err => ((err, 200), st)
  | inr token =>
      match users_dao.get_user_by_session_token st token with
      | None => ((error "Invalid session token", 400), st)
      | Some user =>
          if negb (User.verify_session_token user token now_check)
          then ((error "Invalid session token", 400), st)
          else
            let user' := set_session_expiration user now_set in
            ((message "User has successfully logged out", 200),
             update_row st user')
      end
  end.

(** *** The user routes *)

Definition success_response (data : json) (code : Z) : response :=
  (data, code).

Definition failure_response (msg : string) (code : Z) : response :=
  (error msg, code).

(** [User.query.filter_by(id=user_id).first()]. *)
Definition query_user (st : Store) (user_id : Z) : option User :=
  find (fun row => id_eqb (id row) (Some user_id)) st.

Definition get_users (st : Store) : response :=
  success_response
    (JDict [("users"%string, JList (map User.serialize st))]) 200.

Definition get_user (st : Store) (user_id : Z) : response :=
  match query_user st user_id with
  | None => failure_response "User not found" 404
  | Some user => success_response (User.serialize user) 200
  end.

(** [User.query.filter_by(available=True)]: the rows whose flag is true, a
    null flag excluded. *)
Definition get_available_users (st : Store) : response :=
  let available_hosts :=
    filter (fun row => match available row with
                       | Some true => true
                       | _ => false
                       end) st in
  success_response
    (JDict [("available hosts"%string,
             JList (map User.serialize available_hosts))]) 200.

(** The body of an update, as the five [body.get] calls read it. *)
Record update_body := mkUpdateBody {
  u_bio : option pystr;
  u_contact : option pystr;
  u_host : option bool;
  u_owner : option bool;
  u_available : option bool
}.

Definition assign {A : Type} (set : User -> A -> User) (user : User)
    (value : option A) : User :=
  match value with
  | Some v => set user v
  | None => user
  end.

Definition update_user_by_id (st : Store) (user_id : Z) (body : update_body)
  : response * Store :=
  match query_user st user_id with
  | None => (failure_response "User not found" 404, st)
  | Some user =>
      let user := assign set_bio user (u_bio body) in
      let user := assign set_contact user (u_contact body) in
      let user := assign set_host user (u_host body) in
      let user := assign set_owner user (u_owner body) in
      let user := assign set_available user (u_available body) in
      (success_response (User.serialize user) 201, update_row st user)
  end.

Definition delete_user (st : Store) (user_id : Z) : response * Store :=
  match query_user st user_id with
  | None => (failure_response "User not found" 404, st)
  | Some user =>
      (success_response (User.serialize user) 200, delete_row st user)
  end.

(** [reviewee.serialize().get("reviews")]. *)
Definition get_reviews_by_reviewee (st : Store) (reviewee_id : Z) : response :=
  match query_user st reviewee_id with
  | None => failure_response "User not found" 404
  | Some reviewee =>
      success_response
        (match get "reviews" (User.serialize reviewee) with
         | Some v => v
         | None => JNull
         end) 200
  end.

End app.

(** ** Sequences of requests *)

Inductive request :=
| Register (body : app.register_body) (salt16 : bytes) (d : Draws)
| Login (e password : option pystr)
| UpdateSession (auth_header : option pystr) (d : Draws)
| SecretMessage (auth_header : option pystr) (now : datetime)
| Logout (auth_header : option pystr) (now_check now_set : datetime).

(** The table after a request; a request that raises leaves it as it was. *)
Definition serve `{Bcrypt} (st : Store) (r : request) : Store :=
  match r with
  | Register body salt16 d =>
      match app.register_account st body salt16 d with
      | Ok (_, st') => st'
      | Raise _ => st
      end
  | Login e password =>
      match app.login st e password with
      | Ok (_, st') => st'
      | Raise _ => st
      end
  | UpdateSession h d =>
      match app.update_session st h d with
      | Ok (_, st') => st'
      | Raise _ => st
      end
  | SecretMessage _ _ => st
  | Logout h now_check now_set => snd (app.logout st h now_check now_set)
  end.

Definition run `{Bcrypt} (st : Store) (rs : list request) : Store :=
  fold_left serve rs st.

(** The clock readings of a request. *)
Definition clock_reads (r : request) : list datetime :=
  match r with
  | Register _ _ d => [clock d]
  | Login _ _ => []
  | UpdateSession _ d => [clock d]
  | SecretMessage _ now => [now]
  | Logout _ now_check now_set => [now_check; now_set]
  end.

Definition is_renewal (r : request) : bool :=
  match r with
  | UpdateSession _ _ => true
  | _ => false
  end.

(** A request that renews no session and reads the clock at [t] or later. *)
Definition later_without_renewal (t : datetime) (r : request) : bool :=
  negb (is_renewal r) && forallb (fun now => t <=? now) (clock_reads r).

(** Requests to the user routes as well. *)
Inductive api_request :=
| Auth (r : request)
| GetUsers
| GetUser (user_id : Z)
| GetAvailableUsers
| UpdateUserById (user_id : Z) (body : app.update_body)
| DeleteUser (user_id : Z)
| GetReviewsByReviewee (reviewee_id : Z).

Definition serve_api `{Bcrypt} (st : Store) (r : api_request) : Store :=
  match r with
  | Auth r => serve st r
  | UpdateUserById i body => snd (app.update_user_by_id st i body)
  | DeleteUser i => snd (app.delete_user st i)
  | GetUsers | GetUser _ | GetAvailableUsers | GetReviewsByReviewee _ => st
  end.

Definition run_api `{Bcrypt} (st : Store) (rs : list api_request) : Store :=
  fold_left serve_api rs st.

(** ** Predicates on header values *)

(** Whether the word [Bearer] occurs in [s]. *)
Fixpoint contains_bearer (s : pystr) : bool :=
  match s with
  | [] => false
  | _ :: s' => app.starts_with (lit "Bearer") s || contains_bearer s'
  end.

(** A value [strip] leaves alone: not empty, no white space at either end. *)
Definition stripped (s : pystr) : bool :=
  match s, rev s with
  | c :: _, d :: _ => negb (app.isspace c) && negb (app.isspace d)
  | _, _ => false
  end.

(** The characters [hexdigest] is made of. *)
Definition is_hex (c : N) : bool :=
  let z := Z.of_N c in
  ((48 <=? z) && (z <=? 57)) || ((97 <=? z) && (z <=? 102)).

(** ** Relations between records *)

(** The profile fields, those [User.serialize] is made of. *)
Definition same_profile (u v : User) : Prop :=
  id u = id v /\ name u = name v /\ username u = username v
  /\ bio u = bio v /\ contact u = contact v
  /\ overall_rating u = overall_rating v /\ reviews u = reviews v
  /\ host u = host v /\ owner u = owner v
  /\ categories_h u = categories_h v /\ categories_o u = categories_o v
  /\ available u = available v.

(** Every field but [session_expiration]. *)
Definition same_but_expiration (u v : User) : Prop :=
  same_profile u v
  /\ email u = email v /\ password_digest u = password_digest v
  /\ session_token u = session_token v /\ update_token u = update_token v.

(** Every field but the token triple. *)
Definition same_but_session (u v : User) : Prop :=
  same_profile u v
  /\ email u = email v /\ password_digest u = password_digest v.

(** Every field but [update_token]. *)
Definition same_but_update_token (u v : User) : Prop :=
  same_profile u v
  /\ email u = email v /\ password_digest u = password_digest v
  /\ session_token u = session_token v
  /\ session_expiration u = session_expiration v.

(** The table of a session that was logged out at [t_out]: it satisfies the
    schema, and the record holding [token] expired at [t_out] or before. *)
Definition logged_out (token : pystr) (t_out : datetime) (st : Store) : Prop :=
  wf st
  /\ exists user,
       users_dao.get_user_by_session_token st token = Some user
       /\ session_expiration user <= t_out.

(** The strings a response carries, at any depth. *)
Fixpoint strings (j : json) : list pystr :=
  match j with
  | JStr s => [s]
  | JList l => flat_map strings l
  | JDict kv => flat_map (fun p => strings (snd p)) kv
  | _ => []
  end.

(** ** Sample data *)

(** A stand-in for the [bcrypt] package, to run the model on sample requests.
    It keeps the package's calling convention: the first 29 bytes of a digest
    are its salt, [hashpw] refuses a salt that does not start with [$2], and
    [checkpw] hashes the password with the digest as salt and compares.  The
    Blowfish key schedule is replaced by SHA-1. *)
Definition sample_hashpw (password salt : bytes) : result bytes :=
  match salt with
  | x24 :: x32 :: _ =>
      let s := firstn 29 salt in
      Ok (s ++ map byte_of_Z (Sha1.digest (s ++ password)))%list
  | _ => Raise (ValueError "Invalid salt")
  end.

Definition bytes_eqb (a b : bytes) : bool :=
  if list_eq_dec Byte.byte_eq_dec a b then true else false.

Definition ascii_bytes (s : string) : bytes :=
  map (fun c => byte_of_Z (Z.of_N (N_of_ascii c))) (list_ascii_of_string s).

Definition sample_bcrypt : Bcrypt := {|
  gensalt r salt16 := (ascii_bytes "$2b$13$" ++ salt16 ++ repeat x2e 6)%list;
  hashpw := sample_hashpw;
  checkpw password hashed :=
    h <- sample_hashpw password hashed ;; Ok (bytes_eqb h hashed)
|}.

(** A package none of whose functions ever raises. *)
Definition lenient_bcrypt : Bcrypt := {|
  gensalt r salt16 := salt16;
  hashpw password salt := Ok salt;
  checkpw password hashed := Ok false
|}.

Definition draws_a : Draws := mkDraws (repeat x00 64) 1000 (repeat x01 64).
Definition draws_b : Draws := mkDraws (repeat x02 64) 5000 (repeat x03 64).
(** The generator repeating its earlier output. *)
Definition draws_repeat : Draws := mkDraws (repeat x00 64) 5000 (repeat x01 64).
(** The generator repeating the bytes that gave the update token. *)
Definition draws_repeat_update : Draws :=
  mkDraws (repeat x02 64) 5000 (repeat x01 64).

Definition alice_body : app.register_body :=
  app.mkRegisterBody (Some (lit "a@x.com")) (Some (lit "pw123456"))
                     (Some (lit "Alice")) (Some (lit "alice")) None
                     (Some (lit "a@x.com")) (Some true) (Some false)
                     (Some true).

(** The table after Alice registers on an empty one. *)
Definition store_a : Store :=
  Eval vm_compute in
    @serve sample_bcrypt [] (Register alice_body (repeat x07 16) draws_a).

Definition alice : User := hd (mkUser None [] [] None [] None [] None None [] []
                                      None [] [] [] 0 []) store_a.

Definition bearer (token : pystr) : option pystr :=
  Some (lit "Bearer " ++ token)%list.

(** Alice's record holding another update token. *)
Definition alice_rotated : User :=
  mkUser (id alice) (name alice) (username alice) (bio alice) (contact alice)
         (overall_rating alice) (reviews alice) (host alice) (owner alice)
         (categories_h alice) (categories_o alice) (available alice)
         (email alice) (password_digest alice)
         (session_token alice) (session_expiration alice)
         (User._urlsafe_base_64 (repeat x05 64)).

(** Alice's profile under other credentials and another session. *)
Definition alice_other_credentials : User :=
  mkUser (id alice) (name alice) (username alice) (bio alice) (contact alice)
         (overall_rating alice) (reviews alice) (host alice) (owner alice)
         (categories_h alice) (categories_o alice) (available alice)
         (lit "alice@y.org") (ascii_bytes "$2b$13$another.digest")
         (User._urlsafe_base_64 (repeat x04 64)) 9000
         (User._urlsafe_base_64 (repeat x05 64)).

Definition bob_body : app.register_body :=
  app.mkRegisterBody (Some (lit "b@x.com")) (Some (lit "hunter22"))
                     (Some (lit "Bob")) (Some (lit "bob")) (Some (lit "dogs"))
                     (Some (lit "555-0100")) (Some false) (Some true) None.

(** The table after Alice logs out at 2001. *)
Definition store_out : Store := [set_session_expiration alice 2001].

(** Requests after Alice's logout: she logs in, Bob registers, her old token
    is shown to [/secret/] and to [/logout/]. *)
Definition later_requests : list request :=
  [ Login (Some (lit "a@x.com")) (Some (lit "pw123456"));
    Register bob_body (repeat x09 16) draws_b;
    SecretMessage (bearer (session_token alice)) 6000;
    Logout (bearer (session_token alice)) 7000 7001 ].


(** The entries of the list a route answers with under [key]. *)
Definition listed (key : string) (r : app.response) : list json :=
  match get key (fst r) with
  | Some (JList l) => l
  | _ => []
  end.

(** An update of Alice's bio that also withdraws her availability. *)
Definition sample_update : app.update_body :=
  app.mkUpdateBody (Some (lit "likes cats")) None None None (Some false).

(** The table after Alice and then Bob registered. *)
Definition store_ab : Store :=
  Eval vm_compute in
    @serve sample_bcrypt store_a (Register bob_body (repeat x09 16) draws_b).

Definition bob : User := nth 1 store_ab alice.


(** * Properties *)

(** ** SHA-1: the test vectors of FIPS 180 *)

Example sha1_empty :
  Sha1.hexdigest [] = lit "da39a3ee5e6b4b0d3255bfef95601890afd80709".
Proof. vm_compute. reflexivity. Qed.

Example sha1_abc :
  Sha1.hexdigest (ascii_bytes "abc")
  = lit "a9993e364706816aba3e25717850c26c9cd0d89d".
Proof. vm_compute. reflexivity. Qed.

Example sha1_two_blocks :
  Sha1.hexdigest
    (ascii_bytes "abcdbcdecdefdefgefghfghighijhijkijkljklmklmnlmnomnopnopq")
  = lit "84983e441c3bd26ebaae4aa1f95129e5e54670f1".
Proof. vm_compute. reflexivity. Qed.

(** ** Comparisons and table lookups *)

Lemma pystr_eqb_eq (a b : pystr) : pystr_eqb a b = true <-> a = b.
Proof.
  unfold pystr_eqb. destruct (list_eq_dec N.eq_dec a b); split; congruence.
Qed.

Lemma pystr_eqb_neq (a b : pystr) : pystr_eqb a b = false <-> a <> b.
Proof.
  unfold pystr_eqb. destruct (list_eq_dec N.eq_dec a b); split; congruence.
Qed.

Lemma pystr_eqb_refl (a : pystr) : pystr_eqb a a = true.
Proof. now apply pystr_eqb_eq. Qed.

Lemma id_eqb_eq (a b : option Z) : id_eqb a b = true <-> a = b.
Proof.
  destruct a as [x|], b as [y|]; simpl; split; try congruence.
  - intros E. apply Z.eqb_eq in E. now subst.
  - intros E. injection E as ->. apply Z.eqb_refl.
Qed.

Lemma id_eqb_refl (a : option Z) : id_eqb a a = true.
Proof. now apply id_eqb_eq. Qed.

Lemma id_eqb_neq (a b : option Z) : a <> b -> id_eqb a b = false.
Proof.
  intros N. destruct (id_eqb a b) eqn:E; [|reflexivity].
  apply id_eqb_eq in E. contradiction.
Qed.

(** A successful [find] splits the table at the first matching row. *)
Lemma find_split {A : Type} (p : A -> bool) (l : list A) (x : A) :
  find p l = Some x ->
  exists l1 l2, l = (l1 ++ x :: l2)%list /\ p x = true
                /\ forall y, In y l1 -> p y = false.
Proof.
  induction l as [|a l IH]; simpl; [discriminate|].
  destruct (p a) eqn:E.
  - intros [= ->]. exists [], l. repeat split; [assumption|]. intros y [].
  - intros F. destruct (IH F) as (l1 & l2 & -> & Px & Pl).
    exists (a :: l1), l2. repeat split; [assumption|].
    intros y [<-|I]; [assumption|now apply Pl].
Qed.

Lemma find_app_skip {A : Type} (p : A -> bool) (l1 l2 : list A) :
  (forall y, In y l1 -> p y = false) -> find p (l1 ++ l2) = find p l2.
Proof.
  induction l1 as [|a l1 IH]; simpl; intros H; [reflexivity|].
  rewrite (H a (or_introl eq_refl)). apply IH. intros y I. apply H. now right.
Qed.

Lemma find_none_all {A : Type} (p : A -> bool) (l : list A) :
  (forall y, In y l -> p y = false) -> find p l = None.
Proof.
  induction l as [|a l IH]; simpl; intros H; [reflexivity|].
  rewrite (H a (or_introl eq_refl)). apply IH. intros y I. apply H. now right.
Qed.

Lemma NoDup_app_cons_l {A : Type} (l1 l2 : list A) (x y : A) :
  NoDup (l1 ++ x :: l2) -> In y l1 -> y <> x.
Proof.
  intros ND I ->. apply NoDup_remove_2 in ND. apply ND, in_or_app. now left.
Qed.

Lemma NoDup_app_cons_r {A : Type} (l1 l2 : list A) (x y : A) :
  NoDup (l1 ++ x :: l2) -> In y l2 -> y <> x.
Proof.
  intros ND I ->. apply NoDup_remove_2 in ND. apply ND, in_or_app. now right.
Qed.

(** With a primary key, flushing an object rewrites its row and no other. *)
Lemma update_row_split (l1 l2 : list User) (u u' : User) :
  NoDup (map id (l1 ++ u :: l2)) -> id u' = id u ->
  update_row (l1 ++ u :: l2) u' = (l1 ++ u' :: l2)%list.
Proof.
  intros ND E. rewrite map_app in ND. simpl in ND.
  assert (K : forall l, (forall r, In r l -> id r <> id u) ->
                        map (fun row => if id_eqb (id row) (id u)
                                        then u' else row) l = l).
  { induction l as [|a l IH]; simpl; intros H; [reflexivity|].
    rewrite id_eqb_neq by (apply H; now left).
    f_equal. apply IH. intros r I. apply H. now right. }
  unfold update_row. rewrite E, map_app. simpl.
  rewrite id_eqb_refl, !K; [reflexivity| |].
  - intros r I. apply (NoDup_app_cons_r _ _ _ _ ND). now apply in_map.
  - intros r I. apply (NoDup_app_cons_l _ _ _ _ ND). now apply in_map.
Qed.

Lemma verify_session_token_true (u : User) (t : pystr) (now : datetime) :
  User.verify_session_token u t now = true
  <-> t = session_token u /\ now < session_expiration u.
Proof.
  unfold User.verify_session_token.
  rewrite andb_true_iff, pystr_eqb_eq, Z.ltb_lt. reflexivity.
Qed.

Lemma extract_token_error (h : option pystr) (err : json) :
  app.extract_token h = inl err ->
  err = app.error "Missing auth header"
  \/ err = app.error "Invalid auth header".
Proof.
  unfold app.extract_token. destruct h as [h|]; [|intros [= <-]; now left].
  destruct (app.strip _); [intros [= <-]; now right|discriminate].
Qed.

(** ** The public serialization *)

Lemma serialize_same_profile (u v : User) :
  same_profile u v -> User.serialize u = User.serialize v.
Proof.
  intros (Hid & Hn & Hu & Hb & Hc & Hr & Hrv & Hh & Ho & Hch & Hco & Ha).
  unfold User.serialize.
  now rewrite Hid, Hn, Hu, Hb, Hc, Hr, Hrv, Hh, Ho, Hch, Hco, Ha.
Qed.

(** C10: two [User] records that agree on the profile fields (id, name,
    username, bio, contact, overall_rating, reviews, host, owner, both
    category lists, available) have the same [User.serialize()] output,
    however their email, password digest, session token, session expiration
    and update token differ; and the keys of the output are the twelve
    profile keys, none of them a credential or session field. *)
Theorem serialize_ignores_credentials (u v : User) :
  same_profile u v ->
  User.serialize u = User.serialize v
  /\ keys (User.serialize u)
     = [ "id"; "name"; "username"; "bio"; "contact"; "overall_rating";
         "reviews"; "host"; "owner"; "categories_h"; "categories_o";
         "available" ]%string.
Proof.
  intros P. split; [now apply serialize_same_profile|reflexivity].
Qed.

Lemma serialize_ignores_credentials_witness :
  same_profile alice alice_other_credentials
  /\ User.serialize alice = User.serialize alice_other_credentials
  /\ keys (User.serialize alice)
     = [ "id"; "name"; "username"; "bio"; "contact"; "overall_rating";
         "reviews"; "host"; "owner"; "categories_h"; "categories_o";
         "available" ]%string.
Proof.
  assert (P : same_profile alice alice_other_credentials)
    by (repeat split; reflexivity).
  split; [exact P|].
  exact (serialize_ignores_credentials alice alice_other_credentials P).
Defined.

Example other_credentials_differ :
  email alice <> email alice_other_credentials
  /\ password_digest alice <> password_digest alice_other_credentials
  /\ session_token alice <> session_token alice_other_credentials
  /\ session_expiration alice <> session_expiration alice_other_credentials
  /\ update_token alice <> update_token alice_other_credentials.
Proof. repeat split; vm_compute; discriminate. Qed.

(** ** Password verification *)

(** C7, as amended: [verify_password] returns a boolean exactly when the
    plaintext encodes to UTF-8 and [bcrypt.checkpw] returns that boolean on
    the encoded plaintext and the stored digest; it has no handler, so an
    encoding error or an exception of [bcrypt.checkpw] (on a malformed
    digest, for one) reaches the caller unchanged. *)
Theorem verify_password_outcome (lib : Bcrypt) (u : User) (p : pystr) :
  (forall b, User.verify_password u p = Ok b
             <-> exists pw, utf8_encode p = Ok pw
                            /\ checkpw pw (password_digest u) = Ok b)
  /\ (forall e, User.verify_password u p = Raise e
                <-> utf8_encode p = Raise e
                    \/ exists pw, utf8_encode p = Ok pw
                                  /\ checkpw pw (password_digest u) = Raise e).
Proof.
  unfold User.verify_password, bind.
  destruct (utf8_encode p) as [pw|e0]; split; intros x; split.
  - intros H. now exists pw.
  - intros (pw' & [= <-] & H). exact H.
  - intros H. right. now exists pw.
  - intros [H|(pw' & [= <-] & H)]; [discriminate|exact H].
  - discriminate.
  - intros (pw' & H & _). discriminate.
  - intros [= <-]. now left.
  - intros [[= <-]|(pw' & H & _)]; [reflexivity|discriminate].
Qed.

(** C7, as stated, fails: a password holding a lone surrogate cannot be
    encoded, and [verify_password] raises, whatever [bcrypt] would do. *)
Lemma verify_password_raises :
  @User.verify_password lenient_bcrypt alice [55296%N]
  = Raise UnicodeEncodeError.
Proof. reflexivity. Qed.

(** A digest the package cannot parse: its exception passes through. *)
Example verify_password_malformed_digest :
  @User.verify_password sample_bcrypt
     (mkUser (Some 1) [] [] None [] None [] None None [] [] None [] [] [] 0 [])
     (lit "pw123456")
  = Raise (ValueError "Invalid salt").
Proof. reflexivity. Qed.

(** ** Session verification *)

(** What [secret_message] answers once the header carries a token. *)
Lemma secret_message_accepts (st : Store) (h : option pystr) (t : pystr)
    (now : datetime) :
  app.extract_token h = inr t ->
  app.secret_message st h now
  = (app.message "Wow we implemented session token!!", 200)
  <-> exists u, users_dao.get_user_by_session_token st t = Some u
                /\ session_expiration u <= now.
Proof.
  intros E. unfold app.secret_message. rewrite E.
  destruct (users_dao.get_user_by_session_token st t) as [u|] eqn:F.
  - destruct (find_split _ _ _ F) as (_ & _ & _ & Pu & _).
    apply pystr_eqb_eq in Pu.
    unfold User.verify_session_token.
    rewrite <- Pu, pystr_eqb_refl. simpl.
    destruct (Z.ltb_spec now (session_expiration u)); split.
    + discriminate.
    + intros (u' & [= <-] & L). lia.
    + intros _. now exists u.
    + reflexivity.
  - split; [discriminate|]. intros (u & [=] & _).
Qed.

(** The check itself is right: some record is found by the token and passes
    [verify_session_token] exactly when a record holds the token and the
    clock is strictly before its expiration. *)
Lemma session_check_spec (st : Store) (t : pystr) (now : datetime) :
  wf st ->
  (exists u, users_dao.get_user_by_session_token st t = Some u
             /\ User.verify_session_token u t now = true)
  <-> (exists u, In u st /\ session_token u = t
                 /\ now < session_expiration u).
Proof.
  intros W. split.
  - intros (u & F & V). apply verify_session_token_true in V.
    destruct V as [-> V]. apply find_some in F. now exists u.
  - intros (u & I & <- & V).
    destruct (users_dao.get_user_by_session_token st (session_token u))
      as [v|] eqn:F.
    + pose proof (find_some _ _ F) as [Iv Ev]. apply pystr_eqb_eq in Ev.
      assert (v = u).
      { destruct W as [_ _ _ ND _]. revert ND Iv I Ev. clear.
        induction st as [|a st IH]; simpl; [intros _ []|].
        intros ND Iv Iu E. inversion ND as [|? ? Ha ND']; subst.
        destruct Iv as [->|Iv], Iu as [->|Iu].
        - reflexivity.
        - exfalso. apply Ha. rewrite E. now apply in_map.
        - exfalso. apply Ha. rewrite <- E. now apply in_map.
        - now apply IH. }
      subst v. exists u. split; [reflexivity|].
      now apply verify_session_token_true.
    + exfalso. unfold users_dao.get_user_by_session_token in F.
      pose proof (find_none _ _ F u I) as N. cbv beta in N.
      now rewrite pystr_eqb_refl in N.
Qed.

(** C1: the route that verifies a session does the opposite of the claim.
    For the token of a stored record whose session has not expired, the
    check of [User.verify_session_token] holds and [secret_message] answers
    [Invalid session token]; at the expiration instant the check fails and
    [secret_message] answers with the secret message. *)
Theorem secret_message_inverts_check :
  users_dao.get_user_by_session_token store_a (session_token alice)
  = Some alice
  /\ User.verify_session_token alice (session_token alice) 2000 = true
  /\ app.secret_message store_a (bearer (session_token alice)) 2000
     = (app.error "Invalid session token", 200)
  /\ User.verify_session_token alice (session_token alice)
       (session_expiration alice) = false
  /\ app.secret_message store_a (bearer (session_token alice))
       (session_expiration alice)
     = (app.message "Wow we implemented session token!!", 200).
Proof. repeat split; vm_compute; reflexivity. Qed.

(** ** The constraints of the schema *)

Lemma nodupb_sound {A : Type} (eqb : A -> A -> bool) (l : list A) :
  (forall a b, eqb a b = true <-> a = b) ->
  nodupb eqb l = true -> NoDup l.
Proof.
  intros Heq. induction l as [|a l IH]; simpl; intros H; [constructor|].
  apply andb_true_iff in H. destruct H as [H1 H2].
  constructor; [|now apply IH].
  intros I. apply negb_true_iff in H1.
  assert (E : existsb (eqb a) l = true)
    by (apply existsb_exists; exists a; split; [exact I|now apply Heq]).
  congruence.
Qed.

Lemma wfb_sound (st : Store) : wfb st = true -> wf st.
Proof.
  unfold wfb. rewrite !andb_true_iff.
  intros ((((Hi & Hk) & He) & Hs) & Hu).
  constructor.
  - intros row I E. rewrite forallb_forall in Hi.
    specialize (Hi row I). now rewrite E in Hi.
  - exact (nodupb_sound _ _ id_eqb_eq Hk).
  - exact (nodupb_sound _ _ pystr_eqb_eq He).
  - exact (nodupb_sound _ _ pystr_eqb_eq Hs).
  - exact (nodupb_sound _ _ pystr_eqb_eq Hu).
Qed.

Lemma wf_store_a : wf store_a.
Proof. apply wfb_sound. vm_compute. reflexivity. Qed.

(** Replacing a row by one with the same key, email and tokens. *)
Lemma wf_replace_same (l1 l2 : list User) (u u' : User) :
  id u' = id u -> email u' = email u ->
  session_token u' = session_token u -> update_token u' = update_token u ->
  wf (l1 ++ u :: l2) -> wf (l1 ++ u' :: l2).
Proof.
  intros Ei Ee Es Eu [Hi Hk He Hs Hu].
  rewrite map_app in Hk, He, Hs, Hu. simpl in Hk, He, Hs, Hu.
  constructor; rewrite ?map_app; simpl; rewrite ?Ei, ?Ee, ?Es, ?Eu;
    try assumption.
  intros row I. apply in_app_or in I. destruct I as [I|[<-|I]].
  - apply Hi, in_or_app. now left.
  - rewrite Ei. apply Hi, in_or_app. right. now left.
  - apply Hi, in_or_app. right. now right.
Qed.

Lemma NoDup_replace {A : Type} (l1 l2 : list A) (x y : A) :
  NoDup (l1 ++ x :: l2) -> ~ In y (l1 ++ l2) -> NoDup (l1 ++ y :: l2).
Proof.
  intros ND NI. apply NoDup_remove_1 in ND.
  induction l1 as [|a l1 IH]; simpl in *.
  - now constructor.
  - inversion ND as [|? ? Ha ND']; subst. constructor.
    + intros I. apply in_app_or in I. destruct I as [I|[->|I]].
      * apply Ha, in_or_app. now left.
      * apply NI. now left.
      * apply Ha, in_or_app. now right.
    + apply IH; [assumption|]. intros I. apply NI. now right.
Qed.

Lemma existsb_false {A : Type} (p : A -> bool) (l : list A) (x : A) :
  existsb p l = false -> In x l -> p x = false.
Proof.
  intros E I. destruct (p x) eqn:P; [|reflexivity].
  assert (T : existsb p l = true) by (apply existsb_exists; now exists x).
  congruence.
Qed.

Lemma next_id_above (st : Store) (row : User) (i : Z) :
  In row st -> id row = Some i -> i < next_id st.
Proof.
  intros I E. unfold next_id.
  enough (i <= fold_right (fun row m => match id row with
                                        | Some i => Z.max i m
                                        | None => m
                                        end) 0 st) by lia.
  induction st as [|a st IH]; [destruct I|].
  cbn [fold_right]. destruct I as [->|I].
  - rewrite E. lia.
  - specialize (IH I). destruct (id a); lia.
Qed.

(** ** Logout *)

Lemma logout_store (st : Store) (h : option pystr) (nc ns : datetime) :
  snd (app.logout st h nc ns) = st
  \/ exists t user,
       app.extract_token h = inr t
       /\ users_dao.get_user_by_session_token st t = Some user
       /\ User.verify_session_token user t nc = true
       /\ app.logout st h nc ns
          = ((app.message "User has successfully logged out", 200),
             update_row st (set_session_expiration user ns)).
Proof.
  unfold app.logout.
  destruct (app.extract_token h) as [err|t]; [now left|].
  destruct (users_dao.get_user_by_session_token st t) as [user|] eqn:F;
    [|now left].
  destruct (User.verify_session_token user t nc) eqn:V; [|now left].
  right. now exists t, user.
Qed.

(** The guard of [logout], unlike that of [secret_message], accepts a token
    exactly when its record is unexpired. *)
Lemma logout_accepts (st : Store) (h : option pystr) (t : pystr)
    (nc ns : datetime) :
  app.extract_token h = inr t ->
  fst (app.logout st h nc ns)
  = (app.message "User has successfully logged out", 200)
  <-> exists u, users_dao.get_user_by_session_token st t = Some u
                /\ nc < session_expiration u.
Proof.
  intros E. unfold app.logout. rewrite E.
  destruct (users_dao.get_user_by_session_token st t) as [u|] eqn:F.
  - destruct (find_split _ _ _ F) as (_ & _ & _ & Pu & _).
    apply pystr_eqb_eq in Pu.
    unfold User.verify_session_token.
    rewrite <- Pu, pystr_eqb_refl. simpl.
    destruct (Z.ltb_spec nc (session_expiration u)); simpl; split.
    + intros _. now exists u.
    + reflexivity.
    + discriminate.
    + intros (u' & [= <-] & L). lia.
  - simpl. split; [discriminate|]. intros (u & [=] & _).
Qed.

(** A logout that answers with its success message found the record by its
    token, unexpired, and rewrote that row. *)
Lemma logout_success (st st' : Store) (h : option pystr) (nc ns : datetime) :
  wf st ->
  app.logout st h nc ns
  = ((app.message "User has successfully logged out", 200), st') ->
  exists t user l1 l2,
    app.extract_token h = inr t
    /\ users_dao.get_user_by_session_token st t = Some user
    /\ session_token user = t /\ nc < session_expiration user
    /\ (forall r, In r l1 -> session_token r <> t)
    /\ st = (l1 ++ user :: l2)%list
    /\ st' = (l1 ++ set_session_expiration user ns :: l2)%list.
Proof.
  intros W L. unfold app.logout in L.
  destruct (app.extract_token h) as [err|t] eqn:E.
  { apply extract_token_error in E. destruct E; subst; discriminate. }
  destruct (users_dao.get_user_by_session_token st t) as [user|] eqn:F;
    [|discriminate].
  destruct (User.verify_session_token user t nc) eqn:V; [|discriminate].
  simpl in L. injection L as <-.
  apply verify_session_token_true in V. destruct V as [-> V].
  destruct (find_split _ _ _ F) as (l1 & l2 & -> & _ & Pl).
  exists (session_token user), user, l1, l2.
  repeat split; try assumption; try reflexivity.
  - intros r I. apply pystr_eqb_neq. now apply Pl.
  - apply update_row_split; [apply (wf_key _ W)|reflexivity].
Qed.

(** C4: a successful logout, on a record whose session is unexpired, stores
    the clock reading as that record's [session_expiration] and changes no
    other field of it ([session_token] and [update_token] included), nor any
    other row of the table. *)
Theorem logout_only_sets_expiration (st st' : Store) (h : option pystr)
    (now_check now : datetime) :
  wf st ->
  app.logout st h now_check now
  = ((app.message "User has successfully logged out", 200), st') ->
  exists t user user' l1 l2,
    app.extract_token h = inr t
    /\ users_dao.get_user_by_session_token st t = Some user
    /\ now_check < session_expiration user
    /\ st = (l1 ++ user :: l2)%list
    /\ st' = (l1 ++ user' :: l2)%list
    /\ session_expiration user' = now
    /\ session_token user' = session_token user
    /\ update_token user' = update_token user
    /\ same_but_expiration user user'.
Proof.
  intros W L.
  destruct (logout_success _ _ _ _ _ W L)
    as (t & user & l1 & l2 & E & F & _ & V & _ & -> & ->).
  exists t, user, (set_session_expiration user now), l1, l2.
  repeat split; assumption || reflexivity.
Qed.

Lemma logout_only_sets_expiration_witness :
  wf store_a
  /\ app.logout store_a (bearer (session_token alice)) 2000 2001
     = ((app.message "User has successfully logged out", 200),
        [set_session_expiration alice 2001])
  /\ exists t user user' l1 l2,
       app.extract_token (bearer (session_token alice)) = inr t
       /\ users_dao.get_user_by_session_token store_a t = Some user
       /\ 2000 < session_expiration user
       /\ store_a = (l1 ++ user :: l2)%list
       /\ [set_session_expiration alice 2001] = (l1 ++ user' :: l2)%list
       /\ session_expiration user' = 2001
       /\ session_token user' = session_token user
       /\ update_token user' = update_token user
       /\ same_but_expiration user user'.
Proof.
  assert (L : app.logout store_a (bearer (session_token alice)) 2000 2001
              = ((app.message "User has successfully logged out", 200),
                 [set_session_expiration alice 2001]))
    by (vm_compute; reflexivity).
  split; [exact wf_store_a|split; [exact L|]].
  exact (logout_only_sets_expiration store_a _ _ 2000 2001 wf_store_a L).
Defined.

(** ** Login *)

(** An answer with status 200 is the token triple of the record found by
    email, whose password verified; the table is the one [login] was given. *)
Lemma login_success (lib : Bcrypt) (st st' : Store) (e password : option pystr)
    (body : json) :
  app.login st e password = Ok ((body, 200), st') ->
  st' = st
  /\ exists e' p' user,
       e = Some e' /\ password = Some p'
       /\ users_dao.get_user_by_email st e' = Some user
       /\ User.verify_password user p' = Ok true
       /\ body = JDict (app.tokens_body user).
Proof.
  unfold app.login, users_dao.verify_credentials.
  destruct e as [e'|]; [|discriminate].
  destruct password as [p'|]; [|discriminate].
  destruct (users_dao.get_user_by_email st e') as [user|] eqn:F;
    [|discriminate].
  simpl. destruct (User.verify_password user p') as [[|]|x] eqn:V;
    simpl; try discriminate.
  intros [= <- <-]. split; [reflexivity|]. now exists e', p', user.
Qed.

(** Whatever [login] answers, it leaves the table as it was. *)
Lemma login_store (lib : Bcrypt) (st st' : Store) (e password : option pystr)
    (r : app.response) :
  app.login st e password = Ok (r, st') -> st' = st.
Proof.
  unfold app.login, users_dao.verify_credentials.
  destruct e as [e'|]; [|now intros [= _ <-]].
  destruct password as [p'|]; [|now intros [= _ <-]].
  destruct (users_dao.get_user_by_email st e') as [user|];
    [|now intros [= _ <-]].
  simpl. destruct (User.verify_password user p') as [[|]|x]; simpl;
    try discriminate; now intros [= _ <-].
Qed.

(** C6: a successful login returns the [session_token],
    [session_expiration] and [update_token] stored on the record with the
    given email, and leaves the table, hence the record, unchanged: no new
    triple is issued and the expiration is not extended. *)
Theorem login_returns_stored_triple (lib : Bcrypt) (st st' : Store)
    (e password : option pystr) (body : json) :
  app.login st e password = Ok ((body, 200), st') ->
  st' = st
  /\ exists user,
       In user st /\ Some (email user) = e
       /\ get "session_token" body = Some (JStr (session_token user))
       /\ get "session_expiration" body
          = Some (JDateTime (session_expiration user))
       /\ get "update_token" body = Some (JStr (update_token user))
       /\ keys body
          = ["session_token"; "session_expiration"; "update_token"]%string.
Proof.
  intros L. destruct (login_success _ _ _ _ _ _ L)
    as (-> & e' & p' & user & -> & -> & F & _ & ->).
  split; [reflexivity|]. exists user.
  apply find_some in F. destruct F as [I E]. apply pystr_eqb_eq in E.
  repeat split; try reflexivity; [exact I|now rewrite E].
Qed.

Lemma login_returns_stored_triple_witness :
  @app.login sample_bcrypt store_a (Some (lit "a@x.com"))
     (Some (lit "pw123456"))
  = Ok ((JDict (app.tokens_body alice), 200), store_a)
  /\ (store_a = store_a
      /\ exists user,
           In user store_a /\ Some (email user) = Some (lit "a@x.com")
           /\ get "session_token" (JDict (app.tokens_body alice))
              = Some (JStr (session_token user))
           /\ get "session_expiration" (JDict (app.tokens_body alice))
              = Some (JDateTime (session_expiration user))
           /\ get "update_token" (JDict (app.tokens_body alice))
              = Some (JStr (update_token user))
           /\ keys (JDict (app.tokens_body alice))
              = ["session_token"; "session_expiration"; "update_token"]%string).
Proof.
  assert (L : @app.login sample_bcrypt store_a (Some (lit "a@x.com"))
                 (Some (lit "pw123456"))
              = Ok ((JDict (app.tokens_body alice), 200), store_a))
    by (vm_compute; reflexivity).
  split; [exact L|].
  exact (login_returns_stored_triple sample_bcrypt _ _ _ _ _ L).
Defined.

(** ** Renewal *)

Lemma renew_session_fields (u : User) (d : Draws) :
  session_token (User.renew_session u d)
  = Sha1.hexdigest (urandom_session d)
  /\ update_token (User.renew_session u d)
     = Sha1.hexdigest (urandom_update d)
  /\ session_expiration (User.renew_session u d)
     = clock d + 24 * 3600 * 1000000
  /\ same_but_session u (User.renew_session u d).
Proof.
  repeat split.
Qed.

(** A renewal that answers without an error found the record by its update
    token and rewrote that row with the renewed record. *)
Lemma update_session_success (st st' : Store) (h : option pystr) (d : Draws)
    (body : json) (code : Z) :
  wf st ->
  app.update_session st h d = Ok ((body, code), st') ->
  get "error" body = None ->
  exists t user l1 l2,
    app.extract_token h = inr t
    /\ users_dao.get_user_by_update_token st t = Some user
    /\ update_token user = t
    /\ (forall r, In r l1 -> update_token r <> t)
    /\ st = (l1 ++ user :: l2)%list
    /\ st' = (l1 ++ User.renew_session user d :: l2)%list
    /\ body = JDict (app.tokens_body (User.renew_session user d))
    /\ code = 200
    /\ token_clash st (User.renew_session user d) = false.
Proof.
  intros W U G. unfold app.update_session, users_dao.renew_session in U.
  destruct (app.extract_token h) as [err|t] eqn:E.
  { injection U as <- <- <-. apply extract_token_error in E.
    destruct E; subst; discriminate. }
  destruct (users_dao.get_user_by_update_token st t) as [user|] eqn:F.
  2:{ simpl in U. injection U as <- <- <-. discriminate. }
  destruct (token_clash st (User.renew_session user d)) eqn:C;
    [discriminate|].
  simpl in U. injection U as <- <- <-.
  destruct (find_split _ _ _ F) as (l1 & l2 & -> & Pu & Pl).
  apply pystr_eqb_eq in Pu.
  exists t, user, l1, l2. repeat split; try assumption; try reflexivity.
  - intros r I. apply pystr_eqb_neq. now apply Pl.
  - apply update_row_split; [apply (wf_key _ W)|reflexivity].
Qed.

(** C2, as amended: a successful renewal at time [now] leaves on the record,
    and returns, a [session_token] and an [update_token] that are the SHA-1
    hex digests of the two 64-byte strings just drawn from the random source,
    and [session_expiration = now + 24h]; every other field and every other
    row is unchanged.  Each token differs from the previous one whenever the
    digest of its draw does, which the code does not check. *)
Theorem update_session_issues_triple (st st' : Store) (h : option pystr)
    (d : Draws) (body : json) :
  wf st ->
  app.update_session st h d = Ok ((body, 200), st') ->
  get "error" body = None ->
  exists t user user' l1 l2,
    app.extract_token h = inr t
    /\ update_token user = t
    /\ st = (l1 ++ user :: l2)%list
    /\ st' = (l1 ++ user' :: l2)%list
    /\ session_token user' = Sha1.hexdigest (urandom_session d)
    /\ update_token user' = Sha1.hexdigest (urandom_update d)
    /\ session_expiration user' = clock d + 24 * 3600 * 1000000
    /\ same_but_session user user'
    /\ body = JDict [ ("session_token", JStr (session_token user'));
                      ("session_expiration",
                        JDateTime (session_expiration user'));
                      ("update_token", JStr (update_token user')) ]%string
    /\ (Sha1.hexdigest (urandom_session d) <> session_token user ->
        session_token user' <> session_token user)
    /\ (Sha1.hexdigest (urandom_update d) <> update_token user ->
        update_token user' <> update_token user).
Proof.
  intros W U G.
  destruct (update_session_success _ _ _ _ _ _ W U G)
    as (t & user & l1 & l2 & E & _ & Et & _ & -> & -> & -> & _ & _).
  destruct (renew_session_fields user d) as (Fs & Fu & Fx & Fr).
  exists t, user, (User.renew_session user d), l1, l2.
  repeat split; try assumption; try reflexivity.
  - now rewrite Fs.
  - now rewrite Fu.
Qed.

Lemma update_session_issues_triple_witness :
  wf store_a
  /\ app.update_session store_a (bearer (update_token alice)) draws_b
     = Ok ((JDict (app.tokens_body (User.renew_session alice draws_b)), 200),
           [User.renew_session alice draws_b])
  /\ get "error" (JDict (app.tokens_body (User.renew_session alice draws_b)))
     = None
  /\ exists t user user' l1 l2,
       app.extract_token (bearer (update_token alice)) = inr t
       /\ update_token user = t
       /\ store_a = (l1 ++ user :: l2)%list
       /\ [User.renew_session alice draws_b] = (l1 ++ user' :: l2)%list
       /\ session_token user' = Sha1.hexdigest (urandom_session draws_b)
       /\ update_token user' = Sha1.hexdigest (urandom_update draws_b)
       /\ session_expiration user' = clock draws_b + 24 * 3600 * 1000000
       /\ same_but_session user user'
       /\ JDict (app.tokens_body (User.renew_session alice draws_b))
          = JDict [ ("session_token", JStr (session_token user'));
                    ("session_expiration",
                      JDateTime (session_expiration user'));
                    ("update_token", JStr (update_token user')) ]%string
       /\ (Sha1.hexdigest (urandom_session draws_b) <> session_token user ->
           session_token user' <> session_token user)
       /\ (Sha1.hexdigest (urandom_update draws_b) <> update_token user ->
           update_token user' <> update_token user).
Proof.
  assert (U : app.update_session store_a (bearer (update_token alice)) draws_b
              = Ok ((JDict (app.tokens_body
                              (User.renew_session alice draws_b)), 200),
                    [User.renew_session alice draws_b]))
    by (vm_compute; reflexivity).
  split; [exact wf_store_a|]. split; [exact U|]. split; [reflexivity|].
  exact (update_session_issues_triple store_a _ _ draws_b _
           wf_store_a U eq_refl).
Defined.

(** C2, as stated, fails: when the random source returns the bytes it
    returned before, the renewed record carries the previous tokens. *)
Lemma renewal_can_repeat_tokens :
  app.update_session store_a (bearer (update_token alice)) draws_repeat
  = Ok ((JDict (app.tokens_body (User.renew_session alice draws_repeat)),
         200),
        [User.renew_session alice draws_repeat])
  /\ session_token (User.renew_session alice draws_repeat)
     = session_token alice
  /\ update_token (User.renew_session alice draws_repeat)
     = update_token alice.
Proof. repeat split; vm_compute; reflexivity. Qed.

(** C3, as amended: after a successful renewal presenting [t], provided the
    newly drawn update token differs from [t], no record matches [t] any
    more and a second renewal presenting [t] answers
    [Invalid update token], whatever it draws. *)
Theorem renewed_update_token_is_spent (st st' : Store) (h : option pystr)
    (t : pystr) (d d2 : Draws) (body : json) :
  wf st ->
  app.extract_token h = inr t ->
  app.update_session st h d = Ok ((body, 200), st') ->
  get "error" body = None ->
  Sha1.hexdigest (urandom_update d) <> t ->
  users_dao.get_user_by_update_token st' t = None
  /\ app.update_session st' h d2
     = Ok ((app.error "Invalid update token", 200), st').
Proof.
  intros W E U G Fresh.
  destruct (update_session_success _ _ _ _ _ _ W U G)
    as (t' & user & l1 & l2 & E' & _ & Et & Pl & -> & -> & _ & _ & _).
  rewrite E in E'. injection E' as <-.
  assert (N : users_dao.get_user_by_update_token
                (l1 ++ User.renew_session user d :: l2) t = None).
  { apply find_none_all. intros r I. apply pystr_eqb_neq.
    apply in_app_or in I. destruct I as [I|[<-|I]].
    - now apply Pl.
    - exact Fresh.
    - rewrite <- Et.
      apply (NoDup_app_cons_r (map update_token l1) (map update_token l2)).
      + pose proof (wf_update_token _ W) as ND.
        now rewrite map_app in ND.
      + now apply in_map. }
  split; [exact N|].
  unfold app.update_session, users_dao.renew_session. now rewrite E, N.
Qed.

Lemma renewed_update_token_is_spent_witness :
  wf store_a
  /\ app.extract_token (bearer (update_token alice))
     = inr (update_token alice)
  /\ app.update_session store_a (bearer (update_token alice)) draws_b
     = Ok ((JDict (app.tokens_body (User.renew_session alice draws_b)), 200),
           [User.renew_session alice draws_b])
  /\ get "error" (JDict (app.tokens_body (User.renew_session alice draws_b)))
     = None
  /\ Sha1.hexdigest (urandom_update draws_b) <> update_token alice
  /\ users_dao.get_user_by_update_token [User.renew_session alice draws_b]
       (update_token alice) = None
  /\ app.update_session [User.renew_session alice draws_b]
       (bearer (update_token alice)) draws_a
     = Ok ((app.error "Invalid update token", 200),
           [User.renew_session alice draws_b]).
Proof.
  assert (E : app.extract_token (bearer (update_token alice))
              = inr (update_token alice)) by (vm_compute; reflexivity).
  assert (U : app.update_session store_a (bearer (update_token alice)) draws_b
              = Ok ((JDict (app.tokens_body
                              (User.renew_session alice draws_b)), 200),
                    [User.renew_session alice draws_b]))
    by (vm_compute; reflexivity).
  assert (F : Sha1.hexdigest (urandom_update draws_b) <> update_token alice)
    by (vm_compute; discriminate).
  split; [exact wf_store_a|]. split; [exact E|]. split; [exact U|].
  split; [reflexivity|]. split; [exact F|].
  exact (renewed_update_token_is_spent store_a _ _ _ draws_b draws_a _
           wf_store_a E U eq_refl F).
Defined.

(** C3, as stated, fails: when the renewal draws for the new update token
    the bytes that gave the old one, the old value is the new value and a
    second renewal presenting it succeeds. *)
Lemma spent_update_token_can_renew_again :
  app.update_session store_a (bearer (update_token alice)) draws_repeat_update
  = Ok ((JDict (app.tokens_body
                  (User.renew_session alice draws_repeat_update)), 200),
        [User.renew_session alice draws_repeat_update])
  /\ app.update_session [User.renew_session alice draws_repeat_update]
       (bearer (update_token alice)) draws_b
     = Ok ((JDict (app.tokens_body
                     (User.renew_session
                        (User.renew_session alice draws_repeat_update)
                        draws_b)), 200),
           [User.renew_session (User.renew_session alice draws_repeat_update)
                               draws_b]).
Proof. split; vm_compute; reflexivity. Qed.

(** ** Every route keeps the constraints of the schema *)

Lemma NoDup_snoc {A : Type} (l : list A) (x : A) :
  NoDup l -> ~ In x l -> NoDup (l ++ [x]).
Proof.
  induction l as [|a l IH]; simpl; intros ND NI.
  - constructor; [intros []|constructor].
  - inversion ND as [|? ? Ha ND']; subst. constructor.
    + intros I. apply in_app_or in I. destruct I as [I|[->|[]]].
      * contradiction.
      * apply NI. now left.
    + apply IH; [assumption|]. intros I. apply NI. now right.
Qed.

Lemma NoDup_map_eq {A B : Type} (f : A -> B) (l : list A) (x y : A) :
  NoDup (map f l) -> In x l -> In y l -> f x = f y -> x = y.
Proof.
  induction l as [|a l IH]; simpl; [intros _ []|].
  intros ND Ix Iy E. inversion ND as [|? ? Ha ND']; subst.
  destruct Ix as [->|Ix], Iy as [->|Iy].
  - reflexivity.
  - exfalso. apply Ha. rewrite E. now apply in_map.
  - exfalso. apply Ha. rewrite <- E. now apply in_map.
  - now apply IH.
Qed.

Lemma find_app_some {A : Type} (p : A -> bool) (l l' : list A) (x : A) :
  find p l = Some x -> find p (l ++ l') = Some x.
Proof.
  induction l as [|a l IH]; simpl; [discriminate|].
  destruct (p a); [trivial|exact IH].
Qed.

Lemma find_replace {A : Type} (p : A -> bool) (l1 l2 : list A) (x x' : A) :
  p x = false -> p x' = false ->
  find p (l1 ++ x' :: l2) = find p (l1 ++ x :: l2).
Proof.
  intros Px Px'. induction l1 as [|a l1 IH]; simpl.
  - now rewrite Px, Px'.
  - destruct (p a); [reflexivity|exact IH].
Qed.

Lemma logout_wf (st : Store) (h : option pystr) (nc ns : datetime) :
  wf st -> wf (snd (app.logout st h nc ns)).
Proof.
  intros W.
  destruct (logout_store st h nc ns) as [->|(t & user & _ & F & _ & ->)];
    [exact W|].
  destruct (find_split _ _ _ F) as (l1 & l2 & -> & _ & _). simpl.
  rewrite update_row_split by (apply (wf_key _ W) || reflexivity).
  now apply (wf_replace_same l1 l2 user).
Qed.

Lemma update_session_wf (st st' : Store) (h : option pystr) (d : Draws)
    (resp : app.response) :
  wf st -> app.update_session st h d = Ok (resp, st') -> wf st'.
Proof.
  intros W U. unfold app.update_session, users_dao.renew_session in U.
  destruct (app.extract_token h) as [err|t]; [now injection U as _ <-|].
  destruct (users_dao.get_user_by_update_token st t) as [user|] eqn:F;
    [|now injection U as _ <-].
  destruct (token_clash st (User.renew_session user d)) eqn:C;
    [discriminate|].
  simpl in U. injection U as _ <-.
  destruct (find_split _ _ _ F) as (l1 & l2 & -> & _ & _).
  rewrite update_row_split by (apply (wf_key _ W) || reflexivity).
  assert (K : forall r, In r (l1 ++ l2) ->
                session_token r <> session_token (User.renew_session user d)
                /\ update_token r <> update_token (User.renew_session user d)).
  { intros r I.
    assert (I' : In r (l1 ++ user :: l2))
      by (apply in_app_or in I; apply in_or_app; simpl; tauto).
    pose proof (existsb_false _ _ r C I') as B. cbv beta in B.
    assert (Nid : id r <> id user).
    { pose proof (wf_key _ W) as ND. rewrite map_app in ND. simpl in ND.
      apply in_app_or in I. destruct I as [I|I].
      - apply (NoDup_app_cons_l _ _ _ _ ND). now apply in_map.
      - apply (NoDup_app_cons_r _ _ _ _ ND). now apply in_map. }
    change (id (User.renew_session user d)) with (id user) in B.
    rewrite (id_eqb_neq _ _ Nid) in B. simpl in B.
    apply orb_false_iff in B. destruct B as [B1 B2].
    split; now apply pystr_eqb_neq. }
  destruct W as [Hi Hk He Hs Hu].
  rewrite map_app in Hk, He, Hs, Hu. simpl in Hk, He, Hs, Hu.
  constructor; rewrite ?map_app; simpl; try assumption.
  - intros row I. apply in_app_or in I. destruct I as [I|[<-|I]].
    + apply Hi, in_or_app. now left.
    + apply (Hi user), in_or_app. right. now left.
    + apply Hi, in_or_app. right. now right.
  - apply (NoDup_replace _ _ _ _ Hs). rewrite <- map_app. intros I.
    apply in_map_iff in I. destruct I as (r & E & I).
    now apply (proj1 (K r I)).
  - apply (NoDup_replace _ _ _ _ Hu). rewrite <- map_app. intros I.
    apply in_map_iff in I. destruct I as (r & E & I).
    now apply (proj2 (K r I)).
Qed.

(** A registration leaves the table as it was or appends one row. *)
Lemma register_account_store (lib : Bcrypt) (st st' : Store)
    (body : app.register_body) (salt16 : bytes) (d : Draws)
    (resp : app.response) :
  wf st ->
  app.register_account st body salt16 d = Ok (resp, st') ->
  wf st' /\ (st' = st \/ exists row, st' = (st ++ [row])%list).
Proof.
  intros W R. unfold app.register_account, users_dao.create_user in R.
  destruct (app.b_email body) as [e|]; [|injection R as _ <-; auto].
  destruct (app.b_password body) as [p|]; [|injection R as _ <-; auto].
  destruct (app.b_name body) as [n|]; [|injection R as _ <-; auto].
  destruct (app.b_username body) as [un|]; [|injection R as _ <-; auto].
  destruct (app.b_contact body) as [c|]; [|injection R as _ <-; auto].
  cbn [User.kw_email] in R.
  destruct (users_dao.get_user_by_email st e) as [old|];
    [simpl in R; injection R as _ <-; auto|].
  destruct (User.__init__ _ salt16 d) as [user|x]; [|discriminate].
  simpl in R.
  destruct (insert_clash st user) eqn:C; [discriminate|].
  simpl in R. injection R as _ <-.
  split; [|right; eexists; reflexivity].
  assert (K : forall r, In r st ->
                email r <> email user
                /\ session_token r <> session_token user
                /\ update_token r <> update_token user).
  { intros r I. pose proof (existsb_false _ _ r C I) as B. cbv beta in B.
    apply orb_false_iff in B. destruct B as [B B3].
    apply orb_false_iff in B. destruct B as [B1 B2].
    repeat split; now apply pystr_eqb_neq. }
  destruct W as [Hi Hk He Hs Hu].
  constructor; rewrite ?map_app; simpl.
  - intros row I. apply in_app_or in I. destruct I as [I|[<-|[]]].
    + now apply Hi.
    + discriminate.
  - apply NoDup_snoc; [assumption|]. intros I.
    apply in_map_iff in I. destruct I as (r & E & I).
    pose proof (next_id_above st r _ I E). lia.
  - apply NoDup_snoc; [assumption|]. intros I.
    apply in_map_iff in I. destruct I as (r & E & I).
    now apply (proj1 (K r I)).
  - apply NoDup_snoc; [assumption|]. intros I.
    apply in_map_iff in I. destruct I as (r & E & I).
    now apply (proj1 (proj2 (K r I))).
  - apply NoDup_snoc; [assumption|]. intros I.
    apply in_map_iff in I. destruct I as (r & E & I).
    now apply (proj2 (proj2 (K r I))).
Qed.

(** The schema is an invariant of the service. *)
Lemma serve_wf (lib : Bcrypt) (st : Store) (r : request) :
  wf st -> wf (serve st r).
Proof.
  intros W. destruct r as [body s d|e p|h d|h now|h nc ns]; simpl.
  - destruct (app.register_account st body s d) as [[resp st']|x] eqn:R;
      [|exact W].
    exact (proj1 (register_account_store _ _ _ _ _ _ _ W R)).
  - destruct (app.login st e p) as [[resp st']|x] eqn:L; [|exact W].
    now rewrite (login_store _ _ _ _ _ _ L).
  - destruct (app.update_session st h d) as [[resp st']|x] eqn:U; [|exact W].
    exact (update_session_wf _ _ _ _ _ W U).
  - exact W.
  - now apply logout_wf.
Qed.

Lemma run_wf (lib : Bcrypt) (rs : list request) (st : Store) :
  wf st -> wf (run st rs).
Proof.
  unfold run. revert st. induction rs as [|r rs IH]; simpl; intros st W.
  - exact W.
  - apply IH. now apply serve_wf.
Qed.

(** ** Verification after logout *)

Lemma logout_logged_out (st st' : Store) (h : option pystr) (t : pystr)
    (nc ns : datetime) :
  wf st ->
  app.extract_token h = inr t ->
  app.logout st h nc ns
  = ((app.message "User has successfully logged out", 200), st') ->
  logged_out t ns st'.
Proof.
  intros W E L. split.
  - change st' with (snd (app.message "User has successfully logged out", 200,
                          st')).
    rewrite <- L. now apply logout_wf.
  - destruct (logout_success _ _ _ _ _ W L)
      as (t' & user & l1 & l2 & E' & _ & Et & _ & Pl & -> & ->).
    rewrite E in E'. injection E' as <-.
    exists (set_session_expiration user ns). split; [|simpl; lia].
    unfold users_dao.get_user_by_session_token.
    rewrite find_app_skip.
    + simpl. now rewrite Et, pystr_eqb_refl.
    + intros r I. apply pystr_eqb_neq. now apply Pl.
Qed.

(** A later request that is not a renewal keeps the session logged out. *)
Lemma serve_logged_out (lib : Bcrypt) (t : pystr) (t_out : datetime)
    (st : Store) (r : request) :
  logged_out t t_out st ->
  later_without_renewal t_out r = true ->
  logged_out t t_out (serve st r).
Proof.
  intros [W (u & F & X)] Later.
  split; [now apply serve_wf|].
  destruct r as [body s d|e p|h d|h now|h nc ns]; simpl.
  - destruct (app.register_account st body s d) as [[resp st']|x] eqn:R;
      [|now exists u].
    destruct (register_account_store _ _ _ _ _ _ _ W R)
      as [_ [->|(row & ->)]]; exists u; split; try assumption.
    now apply find_app_some.
  - destruct (app.login st e p) as [[resp st']|x] eqn:L; [|now exists u].
    rewrite (login_store _ _ _ _ _ _ L). now exists u.
  - discriminate.
  - now exists u.
  - unfold later_without_renewal in Later. simpl in Later.
    apply andb_true_iff in Later. destruct Later as [Lc _].
    apply Z.leb_le in Lc.
    destruct (logout_store st h nc ns)
      as [->|(t' & user & _ & F' & V & ->)]; [now exists u|].
    simpl. apply verify_session_token_true in V. destruct V as [-> V].
    destruct (list_eq_dec N.eq_dec (session_token user) t) as [Same|Other].
    + exfalso. subst t.
      unfold users_dao.get_user_by_session_token in F, F'.
      rewrite F in F'. injection F' as ->. lia.
    + destruct (find_split _ _ _ F') as (l1 & l2 & -> & _ & _).
      rewrite update_row_split by (apply (wf_key _ W) || reflexivity).
      exists u. split; [|assumption].
      unfold users_dao.get_user_by_session_token in *.
      rewrite <- F. apply find_replace; now apply pystr_eqb_neq.
Qed.

Lemma run_logged_out (lib : Bcrypt) (t : pystr) (t_out : datetime)
    (rs : list request) (st : Store) :
  logged_out t t_out st ->
  forallb (later_without_renewal t_out) rs = true ->
  logged_out t t_out (run st rs).
Proof.
  unfold run. revert st.
  induction rs as [|r rs IH]; simpl; intros st Inv All; [exact Inv|].
  apply andb_true_iff in All. destruct All as [Hr Hrs].
  apply IH; [|exact Hrs]. now apply serve_logged_out.
Qed.

(** No record of a logged-out table verifies the token from [t_out] on. *)
Lemma logged_out_rejects (t : pystr) (t_out now : datetime) (st : Store) :
  logged_out t t_out st -> t_out <= now ->
  forall user, In user st -> User.verify_session_token user t now = false.
Proof.
  intros [W (u & F & X)] Le user I.
  destruct (User.verify_session_token user t now) eqn:V; [|reflexivity].
  apply verify_session_token_true in V. destruct V as [-> V].
  apply find_some in F. destruct F as [Iu Eu]. apply pystr_eqb_eq in Eu.
  assert (user = u)
    by (apply (NoDup_map_eq session_token st); auto using wf_session_token).
  subst. lia.
Qed.

(** C5: once [logout] has succeeded for a token, then after any later
    requests, none of them a renewal, and at any later time, the record the
    token is looked up to fails [verify_session_token], as does every other
    record, and a further [logout] with the token is answered
    [Invalid session token]. *)
Theorem logout_then_verify_fails (lib : Bcrypt) (st st' : Store)
    (h : option pystr) (t : pystr) (now_check now_set : datetime)
    (rs : list request) (now now' : datetime) :
  wf st ->
  app.extract_token h = inr t ->
  app.logout st h now_check now_set
  = ((app.message "User has successfully logged out", 200), st') ->
  forallb (later_without_renewal now_set) rs = true ->
  now_set <= now ->
  (exists user,
     users_dao.get_user_by_session_token (run st' rs) t = Some user
     /\ User.verify_session_token user t now = false)
  /\ (forall user, In user (run st' rs) ->
                   User.verify_session_token user t now = false)
  /\ app.logout (run st' rs) h now now'
     = ((app.error "Invalid session token", 400), run st' rs).
Proof.
  intros W E L All Le.
  pose proof (run_logged_out lib t now_set rs st'
                (logout_logged_out _ _ _ _ _ _ W E L) All) as Inv.
  pose proof (logged_out_rejects _ _ _ _ Inv Le) as Rej.
  destruct Inv as [_ (u & F & _)].
  assert (V : User.verify_session_token u t now = false).
  { apply Rej. apply find_some in F. apply F. }
  split; [now exists u|]. split; [exact Rej|].
  unfold app.logout. now rewrite E, F, V.
Qed.

Lemma logout_then_verify_fails_witness :
  wf store_a
  /\ app.extract_token (bearer (session_token alice))
     = inr (session_token alice)
  /\ app.logout store_a (bearer (session_token alice)) 2000 2001
     = ((app.message "User has successfully logged out", 200), store_out)
  /\ forallb (later_without_renewal 2001) later_requests = true
  /\ 2001 <= 8000
  /\ (exists user,
        users_dao.get_user_by_session_token
          (@run sample_bcrypt store_out later_requests) (session_token alice)
        = Some user
        /\ User.verify_session_token user (session_token alice) 8000 = false)
  /\ (forall user,
        In user (@run sample_bcrypt store_out later_requests) ->
        User.verify_session_token user (session_token alice) 8000 = false)
  /\ app.logout (@run sample_bcrypt store_out later_requests)
       (bearer (session_token alice)) 8000 8001
     = ((app.error "Invalid session token", 400),
        @run sample_bcrypt store_out later_requests).
Proof.
  assert (E : app.extract_token (bearer (session_token alice))
              = inr (session_token alice)) by (vm_compute; reflexivity).
  assert (L : app.logout store_a (bearer (session_token alice)) 2000 2001
              = ((app.message "User has successfully logged out", 200),
                 store_out)) by (vm_compute; reflexivity).
  assert (A : forallb (later_without_renewal 2001) later_requests = true)
    by (vm_compute; reflexivity).
  assert (T : 2001 <= 8000) by lia.
  split; [exact wf_store_a|]. split; [exact E|]. split; [exact L|].
  split; [exact A|]. split; [exact T|].
  exact (logout_then_verify_fails sample_bcrypt store_a store_out _ _
           2000 2001 later_requests 8000 8001 wf_store_a E L A T).
Defined.

Example later_requests_add_bob :
  map email (@run sample_bcrypt store_out later_requests)
  = [lit "a@x.com"; lit "b@x.com"].
Proof. vm_compute. reflexivity. Qed.

(** ** Where the update token is returned *)

Lemma register_account_created (lib : Bcrypt) (st st' : Store)
    (body : app.register_body) (salt16 : bytes) (d : Draws) (rbody : json) :
  app.register_account st body salt16 d = Ok ((rbody, 201), st') ->
  exists user,
    In user st'
    /\ rbody = JDict (("user"%string, User.serialize user)
                        :: app.tokens_body user).
Proof.
  unfold app.register_account, users_dao.create_user.
  destruct (app.b_email body) as [e|]; [|discriminate].
  destruct (app.b_password body) as [p|]; [|discriminate].
  destruct (app.b_name body) as [n|]; [|discriminate].
  destruct (app.b_username body) as [un|]; [|discriminate].
  destruct (app.b_contact body) as [c|]; [|discriminate].
  cbn [User.kw_email].
  destruct (users_dao.get_user_by_email st e) as [old|];
    [simpl; discriminate|].
  destruct (User.__init__ _ salt16 d) as [user|x]; [|discriminate].
  simpl. destruct (insert_clash st user); [discriminate|].
  simpl. intros [= <- <-]. eexists. split; [|reflexivity].
  apply in_or_app. right. now left.
Qed.

Lemma find_related {A : Type} (R : A -> A -> Prop) (p : A -> bool)
    (l1 l2 : list A) :
  (forall x y, R x y -> p x = p y) ->
  Forall2 R l1 l2 ->
  match find p l1, find p l2 with
  | Some x, Some y => R x y
  | None, None => True
  | _, _ => False
  end.
Proof.
  intros Hp F. induction F as [|x y l1 l2 Rxy F IH]; simpl; [exact I|].
  rewrite <- (Hp x y Rxy). destruct (p x); [exact Rxy|exact IH].
Qed.

Lemma session_lookup_related (st1 st2 : Store) (t : pystr) :
  Forall2 same_but_update_token st1 st2 ->
  match users_dao.get_user_by_session_token st1 t,
        users_dao.get_user_by_session_token st2 t with
  | Some u, Some v =>
      forall now, User.verify_session_token u t now
                  = User.verify_session_token v t now
  | None, None => True
  | _, _ => False
  end.
Proof.
  intros F. unfold users_dao.get_user_by_session_token.
  pose proof (find_related same_but_update_token
                (fun row => pystr_eqb (session_token row) t) st1 st2) as K.
  destruct (find _ st1) as [u|], (find _ st2) as [v|]; try apply K;
    try assumption;
    try (intros x y (_ & _ & _ & Es & _); now rewrite Es).
  assert (R : same_but_update_token u v).
  { apply K; [|assumption].
    intros x y (_ & _ & _ & Es & _). now rewrite Es. }
  destruct R as (_ & _ & _ & Es & Ex). intros now.
  unfold User.verify_session_token. now rewrite Es, Ex.
Qed.

(** C9, as amended: registration, renewal and login are the routes whose
    successful answers carry the record's [update_token]; the answers of
    [secret_message] (session verification) and of [logout] are the same
    whatever update tokens the records hold, and [User.serialize], which
    every other route answers with, does not read the field. *)
Theorem update_token_exposure (lib : Bcrypt) :
  (forall st st' body salt16 d rbody,
      app.register_account st body salt16 d = Ok ((rbody, 201), st') ->
      exists user, In user st'
                   /\ get "update_token" rbody
                      = Some (JStr (update_token user)))
  /\ (forall st st' e password body,
         app.login st e password = Ok ((body, 200), st') ->
         exists user, In user st
                      /\ get "update_token" body
                         = Some (JStr (update_token user)))
  /\ (forall st st' h d body,
         wf st ->
         app.update_session st h d = Ok ((body, 200), st') ->
         get "error" body = None ->
         exists user, In user st'
                      /\ get "update_token" body
                         = Some (JStr (update_token user)))
  /\ (forall st1 st2 h now,
         Forall2 same_but_update_token st1 st2 ->
         app.secret_message st1 h now = app.secret_message st2 h now)
  /\ (forall st1 st2 h now_check now_set,
         Forall2 same_but_update_token st1 st2 ->
         fst (app.logout st1 h now_check now_set)
         = fst (app.logout st2 h now_check now_set))
  /\ (forall u v, same_but_update_token u v ->
                  User.serialize u = User.serialize v).
Proof.
  repeat apply conj.
  - intros st st' body salt16 d rbody R.
    destruct (register_account_created _ _ _ _ _ _ _ R) as (user & I & ->).
    now exists user.
  - intros st st' e password body L.
    destruct (login_success _ _ _ _ _ _ L)
      as (_ & e' & p' & user & _ & _ & F & _ & ->).
    exists user. split; [|reflexivity]. now apply find_some in F.
  - intros st st' h d body W U G.
    destruct (update_session_success _ _ _ _ _ _ W U G)
      as (t & user & l1 & l2 & _ & _ & _ & _ & _ & -> & -> & _ & _).
    exists (User.renew_session user d). split; [|reflexivity].
    apply in_or_app. right. now left.
  - intros st1 st2 h now F. unfold app.secret_message.
    destruct (app.extract_token h) as [err|t]; [reflexivity|].
    pose proof (session_lookup_related st1 st2 t F) as K.
    destruct (users_dao.get_user_by_session_token st1 t) as [u|],
             (users_dao.get_user_by_session_token st2 t) as [v|];
      try contradiction; [|reflexivity].
    now rewrite K.
  - intros st1 st2 h nc ns F. unfold app.logout.
    destruct (app.extract_token h) as [err|t]; [reflexivity|].
    pose proof (session_lookup_related st1 st2 t F) as K.
    destruct (users_dao.get_user_by_session_token st1 t) as [u|],
             (users_dao.get_user_by_session_token st2 t) as [v|];
      try contradiction; [|reflexivity].
    rewrite K. now destruct (User.verify_session_token v t nc).
  - intros u v R. apply serialize_same_profile, R.
Qed.

(** C9, as stated, fails: the answer of a successful login holds the
    record's update token. *)
Lemma login_exposes_update_token :
  @app.login sample_bcrypt store_a (Some (lit "a@x.com"))
     (Some (lit "pw123456"))
  = Ok ((JDict (app.tokens_body alice), 200), store_a)
  /\ get "update_token" (JDict (app.tokens_body alice))
     = Some (JStr (update_token alice))
  /\ In (update_token alice) (strings (JDict (app.tokens_body alice))).
Proof.
  split; [vm_compute; reflexivity|]. split; [reflexivity|].
  simpl. right. now left.
Qed.

Lemma update_token_exposure_witness :
  Forall2 same_but_update_token store_a [alice_rotated]
  /\ update_token alice <> update_token alice_rotated
  /\ app.secret_message store_a (bearer (session_token alice)) 2000
     = app.secret_message [alice_rotated] (bearer (session_token alice)) 2000
  /\ fst (app.logout store_a (bearer (session_token alice)) 2000 2001)
     = fst (app.logout [alice_rotated] (bearer (session_token alice))
                       2000 2001).
Proof.
  assert (F : Forall2 same_but_update_token store_a [alice_rotated])
    by (repeat constructor).
  split; [exact F|]. split; [vm_compute; discriminate|].
  destruct (update_token_exposure sample_bcrypt)
    as (_ & _ & _ & Secret & Logout & _).
  split; [now apply Secret|now apply Logout].
Defined.

(** ** Hashing and verifying a password *)

Section BcryptContract.

Context {lib : Bcrypt}.

(** What the package promises of a digest it produced. *)
Hypothesis checkpw_hashpw :
  forall password salt digest,
    hashpw password salt = Ok digest -> checkpw password digest = Ok true.

(** Under that promise, the record [User(...)] builds verifies the password
    it was built with: both methods encode the password the same way, and the
    digest is stored in the field [verify_password] reads. *)
Lemma verify_password_after_init (kw : User.kwargs) (salt16 : bytes)
    (d : Draws) (user : User) :
  User.__init__ kw salt16 d = Ok user ->
  User.verify_password user (User.kw_password kw) = Ok true.
Proof.
  unfold User.__init__, User.verify_password, bind.
  destruct (utf8_encode (User.kw_password kw)) as [pw|x]; [|discriminate].
  destruct (hashpw pw (gensalt 13 salt16)) as [digest|x] eqn:H;
    [|discriminate].
  intros [= <-]. simpl. now apply (checkpw_hashpw pw (gensalt 13 salt16)).
Qed.

End BcryptContract.

(** * The rest of the session routes, and the user routes *)

(** ** The format of a token *)

Lemma land_255_range (x : Z) : 0 <= Z.land x 255 < 256.
Proof.
  change 255 with (Z.ones 8). rewrite Z.land_ones by lia.
  apply Z.mod_pos_bound. lia.
Qed.

Lemma hex_digit_is_hex (z : Z) :
  0 <= z < 16 -> is_hex (Sha1.hex_digit z) = true.
Proof.
  intros R. unfold is_hex, Sha1.hex_digit.
  destruct (Z.ltb_spec z 10); rewrite Z2N.id by lia;
    apply orb_true_iff; [left|right]; apply andb_true_iff; lia.
Qed.

Lemma hex_pair_is_hex (b : Z) :
  0 <= b < 256 ->
  forallb is_hex [Sha1.hex_digit (Z.shiftr b 4); Sha1.hex_digit (Z.land b 15)]
  = true.
Proof.
  intros R. simpl. rewrite !hex_digit_is_hex; [reflexivity| |].
  - change 15 with (Z.ones 4). rewrite Z.land_ones by lia.
    apply Z.mod_pos_bound. lia.
  - rewrite Z.shiftr_div_pow2 by lia. change (2 ^ 4) with 16.
    split; [apply Z.div_pos; lia|apply Z.div_lt_upper_bound; lia].
Qed.

Lemma be_bytes_range (width : nat) (x : Z) :
  List.length (Sha1.be_bytes width x) = width
  /\ Forall (fun b => 0 <= b < 256) (Sha1.be_bytes width x).
Proof.
  unfold Sha1.be_bytes. split.
  - now rewrite length_map, length_rev, length_seq.
  - apply Forall_forall. intros b I. apply in_map_iff in I.
    destruct I as (i & <- & _). apply land_255_range.
Qed.

Lemma digest_bytes (msg : bytes) :
  List.length (Sha1.digest msg) = 20%nat
  /\ Forall (fun b => 0 <= b < 256) (Sha1.digest msg).
Proof.
  unfold Sha1.digest.
  set (h := Sha1.blocks _ _ _). cbn [flat_map].
  rewrite !length_app, !Forall_app.
  pose proof (be_bytes_range 4 (Sha1.ra h)) as [La Fa].
  pose proof (be_bytes_range 4 (Sha1.rb h)) as [Lb Fb].
  pose proof (be_bytes_range 4 (Sha1.rc h)) as [Lc Fc].
  pose proof (be_bytes_range 4 (Sha1.rd h)) as [Ld Fd].
  pose proof (be_bytes_range 4 (Sha1.re h)) as [Le Fe].
  rewrite La, Lb, Lc, Ld, Le. repeat split; auto.
Qed.

Lemma hexdigest_format (msg : bytes) :
  List.length (Sha1.hexdigest msg) = 40%nat
  /\ forallb is_hex (Sha1.hexdigest msg) = true.
Proof.
  unfold Sha1.hexdigest.
  destruct (digest_bytes msg) as [L F].
  remember (Sha1.digest msg) as bs eqn:E. clear E.
  assert (G : forall l, Forall (fun b => 0 <= b < 256) l ->
              List.length
                (flat_map (fun b => [Sha1.hex_digit (Z.shiftr b 4);
                                     Sha1.hex_digit (Z.land b 15)]) l)
              = (2 * List.length l)%nat
              /\ forallb is_hex
                   (flat_map (fun b => [Sha1.hex_digit (Z.shiftr b 4);
                                        Sha1.hex_digit (Z.land b 15)]) l)
                 = true).
  { induction 1 as [|b l Hb Hl [IH1 IH2]]; [split; reflexivity|].
    cbn [flat_map]. rewrite length_app, forallb_app, IH1, IH2.
    rewrite (hex_pair_is_hex b Hb). split; [simpl; lia|reflexivity]. }
  destruct (G bs F) as [G1 G2]. rewrite G1, L. split; [reflexivity|exact G2].
Qed.

(** X1: whatever the sixty-four random bytes, [_urlsafe_base_64] returns
    forty characters, each a digit or a letter from [a] to [f]. *)
Theorem urlsafe_base_64_format (urandom64 : bytes) :
  List.length (User._urlsafe_base_64 urandom64) = 40%nat
  /\ forallb is_hex (User._urlsafe_base_64 urandom64) = true.
Proof. exact (hexdigest_format urandom64). Qed.

(** ** Reading the token off the header *)

Lemma lstrip_split (s : pystr) :
  exists ws, s = (ws ++ app.lstrip s)%list /\ forallb app.isspace ws = true.
Proof.
  induction s as [|c s (ws & E & F)]; simpl.
  - now exists [].
  - destruct (app.isspace c) eqn:C.
    + exists (c :: ws). simpl. rewrite C, F. split; [now f_equal|reflexivity].
    + now exists [].
Qed.

Lemma lstrip_head (s r : pystr) (c : N) :
  app.lstrip s = c :: r -> app.isspace c = false.
Proof.
  induction s as [|a s IH]; simpl; [discriminate|].
  destruct (app.isspace a) eqn:A; [exact IH|]. now intros [= <- _].
Qed.

Lemma lstrip_spaces (ws s : pystr) :
  forallb app.isspace ws = true -> app.lstrip (ws ++ s) = app.lstrip s.
Proof.
  induction ws as [|c ws IH]; simpl; [reflexivity|].
  intros F. apply andb_true_iff in F. destruct F as [C F].
  rewrite C. now apply IH.
Qed.

Lemma lstrip_fixed (s r : pystr) (c : N) :
  s = c :: r -> app.isspace c = false -> app.lstrip s = s.
Proof. intros -> C. simpl. now rewrite C. Qed.

Lemma stripped_ends (s : pystr) :
  stripped s = true ->
  exists c r d q, s = c :: r /\ rev s = d :: q
                  /\ app.isspace c = false /\ app.isspace d = false.
Proof.
  unfold stripped. destruct s as [|c r]; [discriminate|].
  destruct (rev (c :: r)) as [|d q] eqn:R; [discriminate|].
  intros H. apply andb_true_iff in H. destruct H as [C D].
  apply negb_true_iff in C, D. now exists c, r, d, q.
Qed.

Lemma strip_stripped (s : pystr) : stripped s = true -> app.strip s = s.
Proof.
  intros S. destruct (stripped_ends s S) as (c & r & d & q & E & R & C & D).
  unfold app.strip.
  rewrite (lstrip_fixed s r c E C), (lstrip_fixed (rev s) q d R D).
  apply rev_involutive.
Qed.

Lemma strip_result (s : pystr) :
  app.strip s = [] \/ stripped (app.strip s) = true.
Proof.
  unfold app.strip.
  destruct (lstrip_split (rev (app.lstrip s))) as (ws & E & F).
  destruct (app.lstrip (rev (app.lstrip s))) as [|d q] eqn:B; [now left|].
  right. pose proof (lstrip_head _ _ _ B) as D.
  assert (A : app.lstrip s = (rev (d :: q) ++ rev ws)%list).
  { rewrite <- rev_app_distr, <- E. symmetry. apply rev_involutive. }
  remember (rev (d :: q)) as t eqn:R.
  assert (Rt : rev t = d :: q) by (rewrite R; apply rev_involutive).
  destruct t as [|c r]; [discriminate|].
  change (stripped (c :: r))
    with (match rev (c :: r) with
          | d :: _ => negb (app.isspace c) && negb (app.isspace d)
          | [] => false
          end).
  rewrite Rt. simpl in A. now rewrite (lstrip_head _ _ _ A), D.
Qed.

Lemma replace_bearer_none (s : pystr) :
  contains_bearer s = false -> app.replace_bearer 0 s = s.
Proof.
  induction s as [|c s IH]; [reflexivity|].
  cbn [contains_bearer app.replace_bearer]. intros H.
  apply orb_false_iff in H. destruct H as [H1 H2].
  rewrite H1. f_equal. now apply IH.
Qed.

Lemma replace_bearer_word (s : pystr) :
  app.replace_bearer 0 (lit "Bearer" ++ s) = app.replace_bearer 0 s.
Proof. reflexivity. Qed.

(** X2: a token [extract_token] returns is never empty and has no white
    space at either end. *)
Theorem extract_token_stripped (auth_header : option pystr) (t : pystr) :
  app.extract_token auth_header = inr t -> stripped t = true.
Proof.
  unfold app.extract_token. destruct auth_header as [h|]; [|discriminate].
  destruct (strip_result (app.replace_bearer 0 h)) as [E|S].
  - rewrite E. discriminate.
  - destruct (app.strip (app.replace_bearer 0 h)); [discriminate|].
    now intros [= <-].
Qed.

Lemma extract_token_stripped_witness :
  app.extract_token (Some (lit "  Bearer  abc  ")) = inr (lit "abc")
  /\ stripped (lit "abc") = true.
Proof.
  assert (E : app.extract_token (Some (lit "  Bearer  abc  "))
              = inr (lit "abc")) by reflexivity.
  split; [exact E|]. exact (extract_token_stripped _ _ E).
Defined.

Lemma extract_token_clean (t : pystr) :
  stripped t = true -> contains_bearer t = false ->
  app.extract_token (Some (lit "Bearer " ++ t)%list) = inr t
  /\ app.extract_token (Some t) = inr t.
Proof.
  intros S B. pose proof (strip_stripped t S) as E.
  destruct (stripped_ends t S) as (c & r & _ & _ & Et & _).
  unfold app.extract_token.
  change (lit "Bearer " ++ t)%list with (lit "Bearer" ++ lit " " ++ t)%list.
  rewrite replace_bearer_word.
  assert (B' : contains_bearer (lit " " ++ t) = false) by (simpl; exact B).
  rewrite (replace_bearer_none _ B'), (replace_bearer_none _ B).
  assert (E' : app.strip (lit " " ++ t) = t).
  { unfold app.strip. rewrite (lstrip_spaces (lit " ") t eq_refl).
    exact E. }
  rewrite E', E, Et. split; reflexivity.
Qed.

(** X3: a value with no white space at its ends and without the word
    [Bearer] in it is read back unchanged, whether the header is
    [Bearer <value>] or the bare value: the scheme word is optional. *)
Theorem extract_token_round_trip (t : pystr) :
  stripped t = true -> contains_bearer t = false ->
  app.extract_token (Some (lit "Bearer " ++ t)%list) = inr t
  /\ app.extract_token (Some t) = inr t.
Proof. exact (extract_token_clean t). Qed.

Lemma extract_token_round_trip_witness :
  stripped (lit "c8d7d0ef") = true
  /\ contains_bearer (lit "c8d7d0ef") = false
  /\ app.extract_token (Some (lit "Bearer " ++ lit "c8d7d0ef")%list)
     = inr (lit "c8d7d0ef")
  /\ app.extract_token (Some (lit "c8d7d0ef")) = inr (lit "c8d7d0ef").
Proof.
  split; [reflexivity|]. split; [reflexivity|].
  exact (extract_token_round_trip (lit "c8d7d0ef") eq_refl eq_refl).
Defined.

Lemma hex_not_space (c : N) : is_hex c = true -> app.isspace c = false.
Proof.
  unfold is_hex, app.isspace. intros H.
  apply orb_true_iff in H. rewrite !andb_true_iff in H.
  repeat (apply orb_false_iff; split);
    try apply andb_false_iff; try lia;
    try (destruct (Z.leb_spec 9 (Z.of_N c)); [right|left]; lia);
    try (destruct (Z.leb_spec 28 (Z.of_N c)); [right|left]; lia);
    try (destruct (Z.leb_spec 8192 (Z.of_N c)); [right|left]; lia).
Qed.

Lemma hex_no_bearer (s : pystr) :
  forallb is_hex s = true -> contains_bearer s = false.
Proof.
  induction s as [|c s IH]; [reflexivity|].
  cbn [forallb contains_bearer]. intros H.
  apply andb_true_iff in H. destruct H as [C H].
  rewrite (IH H), orb_false_r.
  change (app.starts_with (lit "Bearer") (c :: s))
    with (N.eqb 66 c && app.starts_with (lit "earer") s).
  destruct (N.eqb_spec 66 c) as [<-|]; [discriminate|reflexivity].
Qed.

Lemma hex_stripped (s : pystr) :
  s <> [] -> forallb is_hex s = true -> stripped s = true.
Proof.
  intros NE H. unfold stripped.
  destruct s as [|c r]; [contradiction|].
  assert (Hr : forallb is_hex (rev (c :: r)) = true).
  { apply forallb_forall. intros x I. apply in_rev in I.
    now apply (proj1 (forallb_forall _ _) H). }
  destruct (rev (c :: r)) as [|d q] eqn:R.
  - apply (f_equal (@rev N)) in R. rewrite rev_involutive in R.
    discriminate.
  - cbn [forallb] in H, Hr. apply andb_true_iff in H, Hr.
    now rewrite (hex_not_space c), (hex_not_space d).
Qed.

Lemma bearer_urlsafe (urandom64 : bytes) :
  app.extract_token (bearer (User._urlsafe_base_64 urandom64))
  = inr (User._urlsafe_base_64 urandom64).
Proof.
  destruct (hexdigest_format urandom64) as [L H].
  unfold User._urlsafe_base_64. apply extract_token_clean.
  - apply hex_stripped; [|exact H]. intros E. rewrite E in L. discriminate.
  - now apply hex_no_bearer.
Qed.

(** X4: every token the server issues, sent back as [Bearer <token>], is
    read off the header exactly as issued. *)
Theorem issued_token_round_trip (urandom64 : bytes) :
  app.extract_token
    (Some (lit "Bearer " ++ User._urlsafe_base_64 urandom64)%list)
  = inr (User._urlsafe_base_64 urandom64).
Proof. exact (bearer_urlsafe urandom64). Qed.

Lemma spaces_no_bearer (ws : pystr) :
  forallb app.isspace ws = true -> contains_bearer ws = false.
Proof.
  induction ws as [|c ws IH]; [reflexivity|].
  cbn [forallb contains_bearer]. intros H.
  apply andb_true_iff in H. destruct H as [C H].
  rewrite (IH H), orb_false_r.
  change (app.starts_with (lit "Bearer") (c :: ws))
    with (N.eqb 66 c && app.starts_with (lit "earer") ws).
  destruct (N.eqb_spec 66 c) as [<-|]; [discriminate|reflexivity].
Qed.

Lemma strip_spaces (ws : pystr) :
  forallb app.isspace ws = true -> app.strip ws = [].
Proof.
  intros H. unfold app.strip.
  pose proof (lstrip_spaces ws [] H) as E. rewrite app_nil_r in E.
  now rewrite E.
Qed.

(** X5: a request without the header is answered [Missing auth header]; a
    header of white space only, with or without the word [Bearer] before
    it, is answered [Invalid auth header]. *)
Theorem extract_token_blank (ws : pystr) :
  forallb app.isspace ws = true ->
  app.extract_token None = inl (app.error "Missing auth header")
  /\ app.extract_token (Some ws) = inl (app.error "Invalid auth header")
  /\ app.extract_token (Some (lit "Bearer" ++ ws)%list)
     = inl (app.error "Invalid auth header").
Proof.
  intros H. split; [reflexivity|].
  unfold app.extract_token. rewrite replace_bearer_word.
  now rewrite (replace_bearer_none _ (spaces_no_bearer ws H)),
              (strip_spaces ws H).
Qed.

Lemma extract_token_blank_witness :
  forallb app.isspace (lit "   ") = true
  /\ app.extract_token None = inl (app.error "Missing auth header")
  /\ app.extract_token (Some (lit "   "))
     = inl (app.error "Invalid auth header")
  /\ app.extract_token (Some (lit "Bearer" ++ lit "   ")%list)
     = inl (app.error "Invalid auth header").
Proof.
  split; [reflexivity|]. exact (extract_token_blank (lit "   ") eq_refl).
Defined.

(** ** Status codes and failed requests *)

(** X6: [update_session] and [secret_message] answer every request, errors
    included, with status 200.  [logout] answers 400 exactly when the header
    yields a token that no unexpired record is found by, and 200 otherwise,
    also when the header is missing or blank. *)
Theorem session_status_codes (st : Store) (h : option pystr) :
  (forall d r st', app.update_session st h d = Ok (r, st') -> snd r = 200)
  /\ (forall now, snd (app.secret_message st h now) = 200)
  /\ (forall now_check now_set,
         (snd (fst (app.logout st h now_check now_set)) = 400
          <-> exists t,
                app.extract_token h = inr t
                /\ forall u, users_dao.get_user_by_session_token st t = Some u
                             -> session_expiration u <= now_check)
         /\ (snd (fst (app.logout st h now_check now_set)) = 400
             \/ snd (fst (app.logout st h now_check now_set)) = 200)).
Proof.
  repeat apply conj.
  - intros d r st'. unfold app.update_session, users_dao.renew_session.
    destruct (app.extract_token h) as [err|t]; [now intros [= <- _]|].
    destruct (users_dao.get_user_by_update_token st t) as [user|];
      [|now intros [= <- _]].
    destruct (token_clash st (User.renew_session user d));
      [discriminate|now intros [= <- _]].
  - intros now. unfold app.secret_message.
    destruct (app.extract_token h) as [err|t]; [reflexivity|].
    destruct (users_dao.get_user_by_session_token st t) as [user|];
      [|reflexivity].
    now destruct (User.verify_session_token user t now).
  - intros nc ns. unfold app.logout.
    destruct (app.extract_token h) as [err|t] eqn:E.
    { split; [split; [discriminate|intros (t & [=] & _)]|now right]. }
    destruct (users_dao.get_user_by_session_token st t) as [user|] eqn:F.
    2:{ split; [|now left]. split; [|reflexivity].
        intros _. exists t. split; [reflexivity|].
        intros u K. rewrite F in K. discriminate. }
    destruct (find_split _ _ _ F) as (_ & _ & _ & Pu & _).
    apply pystr_eqb_eq in Pu. subst t.
    unfold User.verify_session_token. rewrite pystr_eqb_refl.
    destruct (Z.ltb_spec nc (session_expiration user)); simpl.
    + split; [|now right]. split; [discriminate|].
      intros (t' & [= <-] & K). specialize (K user F). lia.
    + split; [|now left]. split; [|reflexivity].
      intros _. exists (session_token user). split; [reflexivity|].
      intros u K. rewrite F in K. now injection K as <-.
Qed.

(** X7: a request answered with an error leaves the table as it was: a
    registration not answered 201, a renewal answered with an [error]
    entry, a logout not answered with its success message, an update or a
    deletion answered 404. *)
Theorem failed_request_changes_nothing (lib : Bcrypt) (st : Store) :
  (forall body salt16 d r code st',
      app.register_account st body salt16 d = Ok ((r, code), st') ->
      code <> 201 -> st' = st)
  /\ (forall h d r code st',
         app.update_session st h d = Ok ((r, code), st') ->
         get "error" r <> None -> st' = st)
  /\ (forall h now_check now_set,
         fst (app.logout st h now_check now_set)
         <> (app.message "User has successfully logged out", 200) ->
         snd (app.logout st h now_check now_set) = st)
  /\ (forall user_id body,
         snd (fst (app.update_user_by_id st user_id body)) = 404 ->
         snd (app.update_user_by_id st user_id body) = st)
  /\ (forall user_id,
         snd (fst (app.delete_user st user_id)) = 404 ->
         snd (app.delete_user st user_id) = st).
Proof.
  repeat apply conj.
  - intros body salt16 d r code st'.
    unfold app.register_account, users_dao.create_user.
    destruct (app.b_email body) as [e|]; [|now intros [= _ _ <-]].
    destruct (app.b_password body) as [p|]; [|now intros [= _ _ <-]].
    destruct (app.b_name body) as [n|]; [|now intros [= _ _ <-]].
    destruct (app.b_username body) as [un|]; [|now intros [= _ _ <-]].
    destruct (app.b_contact body) as [c|]; [|now intros [= _ _ <-]].
    cbn [User.kw_email].
    destruct (users_dao.get_user_by_email st e) as [old|];
      [simpl; now intros [= _ _ <-]|].
    destruct (User.__init__ _ salt16 d) as [user|x]; [|discriminate].
    simpl. destruct (insert_clash st user); [discriminate|].
    simpl. intros [= _ <- _] N. contradiction.
  - intros h d r code st'.
    unfold app.update_session, users_dao.renew_session.
    destruct (app.extract_token h) as [err|t]; [now intros [= _ _ <-]|].
    destruct (users_dao.get_user_by_update_token st t) as [user|];
      [|now intros [= _ _ <-]].
    destruct (token_clash st (User.renew_session user d));
      [discriminate|].
    simpl. intros [= <- _ _] N. now contradiction N.
  - intros h nc ns N.
    destruct (logout_store st h nc ns) as [E|(t & user & _ & _ & _ & E)];
      [exact E|].
    rewrite E in N. now contradiction N.
  - intros user_id body. unfold app.update_user_by_id.
    destruct (app.query_user st user_id); [discriminate|reflexivity].
  - intros user_id. unfold app.delete_user.
    destruct (app.query_user st user_id); [discriminate|reflexivity].
Qed.

(** ** Registration *)

(** What a registration answered 201 did. *)
Lemma register_account_201 (lib : Bcrypt) (st st' : Store)
    (body : app.register_body) (salt16 : bytes) (d : Draws) (r : json) :
  app.register_account st body salt16 d = Ok ((r, 201), st') ->
  exists e p n un c pw digest row,
    app.b_email body = Some e /\ app.b_password body = Some p
    /\ app.b_name body = Some n /\ app.b_username body = Some un
    /\ app.b_contact body = Some c
    /\ users_dao.get_user_by_email st e = None
    /\ utf8_encode p = Ok pw
    /\ hashpw pw (gensalt 13 salt16) = Ok digest
    /\ row = mkUser (Some (next_id st)) n un (app.b_bio body) c None []
                    (app.b_host body) (app.b_owner body) [] []
                    (app.b_available body) e digest
                    (Sha1.hexdigest (urandom_session d))
                    (clock d + timedelta_days 1)
                    (Sha1.hexdigest (urandom_update d))
    /\ insert_clash st row = false
    /\ st' = (st ++ [row])%list
    /\ r = JDict (("user"%string, User.serialize row)
                    :: app.tokens_body row).
Proof.
  unfold app.register_account, users_dao.create_user, User.__init__.
  destruct (app.b_email body) as [e|]; [|discriminate].
  destruct (app.b_password body) as [p|]; [|discriminate].
  destruct (app.b_name body) as [n|]; [|discriminate].
  destruct (app.b_username body) as [un|]; [|discriminate].
  destruct (app.b_contact body) as [c|]; [|discriminate].
  cbn [User.kw_email User.kw_password User.kw_name User.kw_username
       User.kw_bio User.kw_contact User.kw_host User.kw_owner
       User.kw_available].
  destruct (users_dao.get_user_by_email st e) as [old|] eqn:F;
    [simpl; discriminate|].
  destruct (utf8_encode p) as [pw|x] eqn:U; [|discriminate].
  cbn [bind].
  destruct (hashpw pw (gensalt 13 salt16)) as [digest|x] eqn:H;
    [|discriminate].
  cbn [bind].
  match goal with
  | |- context [insert_clash st ?u] =>
      destruct (insert_clash st u) eqn:C; [discriminate|]
  end.
  cbn [bind]. intros [= <- <-].
  exists e, p, n, un, c, pw, digest. eexists.
  repeat split; try reflexivity; assumption.
Qed.

Lemma insert_clash_false (st : Store) (user row : User) :
  insert_clash st user = false -> In row st ->
  email row <> email user
  /\ session_token row <> session_token user
  /\ update_token row <> update_token user.
Proof.
  intros C I. pose proof (existsb_false _ _ row C I) as B. cbv beta in B.
  apply orb_false_iff in B. destruct B as [B B3].
  apply orb_false_iff in B. destruct B as [B1 B2].
  repeat split; now apply pystr_eqb_neq.
Qed.

(** The row a registration appended is the one its tokens and email find. *)
Lemma appended_row_lookups (st : Store) (row : User) :
  insert_clash st row = false ->
  users_dao.get_user_by_email (st ++ [row]) (email row) = Some row
  /\ users_dao.get_user_by_session_token (st ++ [row]) (session_token row)
     = Some row
  /\ users_dao.get_user_by_update_token (st ++ [row]) (update_token row)
     = Some row.
Proof.
  intros C.
  unfold users_dao.get_user_by_email, users_dao.get_user_by_session_token,
    users_dao.get_user_by_update_token.
  repeat split; rewrite find_app_skip;
    try (simpl; now rewrite pystr_eqb_refl);
    intros y I; apply pystr_eqb_neq;
    destruct (insert_clash_false st row y C I) as (A1 & A2 & A3); assumption.
Qed.



(** [logout] accepts the token of a record the lookup finds exactly while
    that record is unexpired. *)
Lemma logout_accepts_row (st : Store) (h : option pystr) (row : User)
    (nc ns : datetime) :
  app.extract_token h = inr (session_token row) ->
  users_dao.get_user_by_session_token st (session_token row) = Some row ->
  fst (app.logout st h nc ns)
  = (app.message "User has successfully logged out", 200)
  <-> nc < session_expiration row.
Proof.
  intros E F. rewrite (logout_accepts st h _ nc ns E). split.
  - intros (u & Fu & L). rewrite F in Fu. now injection Fu as <-.
  - intros L. now exists row.
Qed.

(** X9: the session token a registration returns, sent back as
    [Bearer <token>], is accepted by [logout] at every clock reading
    before the registration's plus 24 hours, and at none from then on. *)
Theorem register_opens_session (lib : Bcrypt) (st st' : Store)
    (body : app.register_body) (salt16 : bytes) (d : Draws) (r : json)
    (t : pystr) :
  app.register_account st body salt16 d = Ok ((r, 201), st') ->
  get "session_token" r = Some (JStr t) ->
  forall now_check now_set,
    fst (app.logout st' (Some (lit "Bearer " ++ t)%list) now_check now_set)
    = (app.message "User has successfully logged out", 200)
    <-> now_check < clock d + 24 * 3600 * 1000000.
Proof.
  intros R G nc ns. destruct (register_account_201 _ _ _ _ _ _ _ R)
    as (e & p & n & un & c & pw & digest & row
        & _ & _ & _ & _ & _ & _ & _ & _ & Er & C & -> & ->).
  cbn in G. injection G as <-.
  destruct (appended_row_lookups st row C) as (_ & F & _).
  assert (E : app.extract_token (Some (lit "Bearer " ++ session_token row)%list)
              = inr (session_token row)).
  { rewrite Er. apply (bearer_urlsafe (urandom_session d)). }
  rewrite (logout_accepts_row _ _ row nc ns E F).
  rewrite Er. simpl. unfold timedelta_days. lia.
Qed.

Lemma register_opens_session_witness :
  @app.register_account sample_bcrypt [] alice_body (repeat x07 16) draws_a
  = Ok ((JDict (("user"%string, User.serialize alice)
                  :: app.tokens_body alice), 201), store_a)
  /\ get "session_token" (JDict (("user"%string, User.serialize alice)
                                   :: app.tokens_body alice))
     = Some (JStr (session_token alice))
  /\ forall now_check now_set,
       fst (app.logout store_a
              (Some (lit "Bearer " ++ session_token alice)%list)
              now_check now_set)
       = (app.message "User has successfully logged out", 200)
       <-> now_check < clock draws_a + 24 * 3600 * 1000000.
Proof.
  assert (R : @app.register_account sample_bcrypt [] alice_body
                 (repeat x07 16) draws_a
              = Ok ((JDict (("user"%string, User.serialize alice)
                              :: app.tokens_body alice), 201), store_a))
    by (vm_compute; reflexivity).
  split; [exact R|]. split; [reflexivity|].
  exact (register_opens_session sample_bcrypt _ _ _ _ _ _ _ R eq_refl).
Defined.

(** X10: when [bcrypt] verifies the password against the digest it made of
    it, a login with the email and password of a registration just
    answered 201 succeeds and returns the very triple the registration
    returned, leaving the table as the registration left it. *)
Theorem register_then_login (lib : Bcrypt) (st st' : Store)
    (body : app.register_body) (salt16 : bytes) (d : Draws) (r : json) :
  app.register_account st body salt16 d = Ok ((r, 201), st') ->
  (forall p pw digest,
      app.b_password body = Some p -> utf8_encode p = Ok pw ->
      hashpw pw (gensalt 13 salt16) = Ok digest ->
      checkpw pw digest = Ok true) ->
  exists answer,
    app.login st' (app.b_email body) (app.b_password body)
    = Ok ((answer, 200), st')
    /\ get "session_token" answer = get "session_token" r
    /\ get "session_expiration" answer = get "session_expiration" r
    /\ get "update_token" answer = get "update_token" r.
Proof.
  intros R Contract. destruct (register_account_201 _ _ _ _ _ _ _ R)
    as (e & p & n & un & c & pw & digest & row
        & Ee & Ep & _ & _ & _ & _ & U & H & Er & C & -> & ->).
  destruct (appended_row_lookups st row C) as (F & _ & _).
  exists (JDict (app.tokens_body row)).
  rewrite Ee, Ep. unfold app.login, users_dao.verify_credentials.
  assert (Em : email row = e) by now rewrite Er.
  rewrite Em in F. rewrite F.
  unfold User.verify_password. rewrite U. cbn [bind].
  assert (Ed : password_digest row = digest) by now rewrite Er.
  rewrite Ed, (Contract p pw digest Ep U H). cbn [bind].
  repeat split.
Qed.

Lemma register_then_login_witness :
  @app.register_account sample_bcrypt [] alice_body (repeat x07 16) draws_a
  = Ok ((JDict (("user"%string, User.serialize alice)
                  :: app.tokens_body alice), 201), store_a)
  /\ (forall p pw digest,
         app.b_password alice_body = Some p -> utf8_encode p = Ok pw ->
         @hashpw sample_bcrypt pw (@gensalt sample_bcrypt 13 (repeat x07 16))
         = Ok digest ->
         @checkpw sample_bcrypt pw digest = Ok true)
  /\ exists answer,
       @app.login sample_bcrypt store_a (app.b_email alice_body)
          (app.b_password alice_body)
       = Ok ((answer, 200), store_a)
       /\ get "session_token" answer = Some (JStr (session_token alice))
       /\ get "session_expiration" answer
          = Some (JDateTime (session_expiration alice))
       /\ get "update_token" answer = Some (JStr (update_token alice)).
Proof.
  assert (R : @app.register_account sample_bcrypt [] alice_body
                 (repeat x07 16) draws_a
              = Ok ((JDict (("user"%string, User.serialize alice)
                              :: app.tokens_body alice), 201), store_a))
    by (vm_compute; reflexivity).
  assert (K : forall p pw digest,
             app.b_password alice_body = Some p -> utf8_encode p = Ok pw ->
             @hashpw sample_bcrypt pw
               (@gensalt sample_bcrypt 13 (repeat x07 16)) = Ok digest ->
             @checkpw sample_bcrypt pw digest = Ok true).
  { intros p pw digest [= <-] U H.
    vm_compute in U. injection U as <-.
    vm_compute in H. injection H as <-. vm_compute. reflexivity. }
  split; [exact R|]. split; [exact K|].
  exact (register_then_login sample_bcrypt _ _ _ _ _ _ R K).
Defined.

(** ** Login failures *)

(** X11: an email no record holds and a password [verify_password] rejects
    get the same answer, [Incorrect email or password] with status 400, and
    neither changes the table. *)
Theorem login_failures_alike (lib : Bcrypt) (st : Store) (e p : pystr) :
  users_dao.get_user_by_email st e = None
  \/ (exists user, users_dao.get_user_by_email st e = Some user
                   /\ User.verify_password user p = Ok false) ->
  app.login st (Some e) (Some p)
  = Ok ((app.error "Incorrect email or password", 400), st).
Proof.
  unfold app.login, users_dao.verify_credentials.
  intros [F|(user & F & V)]; rewrite F; [reflexivity|].
  now rewrite V.
Qed.

Lemma login_failures_alike_witness :
  (users_dao.get_user_by_email store_a (lit "nobody@x.com") = None
   \/ (exists user,
          users_dao.get_user_by_email store_a (lit "nobody@x.com")
          = Some user
          /\ @User.verify_password sample_bcrypt user (lit "pw123456")
             = Ok false))
  /\ (users_dao.get_user_by_email store_a (lit "a@x.com") = None
      \/ (exists user,
             users_dao.get_user_by_email store_a (lit "a@x.com") = Some user
             /\ @User.verify_password sample_bcrypt user (lit "wrong")
                = Ok false))
  /\ @app.login sample_bcrypt store_a (Some (lit "nobody@x.com"))
        (Some (lit "pw123456"))
     = Ok ((app.error "Incorrect email or password", 400), store_a)
  /\ @app.login sample_bcrypt store_a (Some (lit "a@x.com"))
        (Some (lit "wrong"))
     = Ok ((app.error "Incorrect email or password", 400), store_a).
Proof.
  assert (A : users_dao.get_user_by_email store_a (lit "nobody@x.com") = None
              \/ (exists user,
                     users_dao.get_user_by_email store_a (lit "nobody@x.com")
                     = Some user
                     /\ @User.verify_password sample_bcrypt user
                          (lit "pw123456") = Ok false))
    by (left; vm_compute; reflexivity).
  assert (B : users_dao.get_user_by_email store_a (lit "a@x.com") = None
              \/ (exists user,
                     users_dao.get_user_by_email store_a (lit "a@x.com")
                     = Some user
                     /\ @User.verify_password sample_bcrypt user (lit "wrong")
                        = Ok false))
    by (right; exists alice; split; vm_compute; reflexivity).
  split; [exact A|]. split; [exact B|]. split.
  - exact (login_failures_alike sample_bcrypt _ _ _ A).
  - exact (login_failures_alike sample_bcrypt _ _ _ B).
Defined.

(** ** Renewal and the session tokens *)

(** The tokens of a renewed record find it, and the old row's are gone from
    the rows around it. *)
Lemma renewed_row_lookup (l1 l2 : list User) (user : User) (d : Draws) :
  wf (l1 ++ user :: l2) ->
  token_clash (l1 ++ user :: l2) (User.renew_session user d) = false ->
  users_dao.get_user_by_session_token
    (l1 ++ User.renew_session user d :: l2)
    (session_token (User.renew_session user d))
  = Some (User.renew_session user d)
  /\ forall row, In row (l1 ++ l2) ->
                 session_token row <> session_token user
                 /\ session_token row
                    <> session_token (User.renew_session user d).
Proof.
  intros W C.
  assert (K : forall row, In row (l1 ++ l2) ->
                session_token row <> session_token user
                /\ session_token row
                   <> session_token (User.renew_session user d)).
  { intros row I.
    assert (I' : In row (l1 ++ user :: l2))
      by (apply in_app_or in I; apply in_or_app; simpl; tauto).
    pose proof (wf_key _ W) as Nk. pose proof (wf_session_token _ W) as Ns.
    rewrite map_app in Nk, Ns. simpl in Nk, Ns.
    assert (Nid : id row <> id user /\ session_token row <> session_token user).
    { apply in_app_or in I. destruct I as [I|I]; split.
      - apply (NoDup_app_cons_l _ _ _ _ Nk). now apply in_map.
      - apply (NoDup_app_cons_l _ _ _ _ Ns). now apply in_map.
      - apply (NoDup_app_cons_r _ _ _ _ Nk). now apply in_map.
      - apply (NoDup_app_cons_r _ _ _ _ Ns). now apply in_map. }
    destruct Nid as [Nid Ntok]. split; [exact Ntok|].
    pose proof (existsb_false _ _ row C I') as B. cbv beta in B.
    change (id (User.renew_session user d)) with (id user) in B.
    rewrite (id_eqb_neq _ _ Nid) in B. simpl in B.
    apply orb_false_iff in B. now apply pystr_eqb_neq. }
  split; [|exact K].
  unfold users_dao.get_user_by_session_token. rewrite find_app_skip.
  - cbn [find]. now rewrite pystr_eqb_refl.
  - intros y I. apply pystr_eqb_neq. apply K, in_or_app. now left.
Qed.

(** X12: the session token a successful renewal returns, sent back as
    [Bearer <token>], is accepted by [logout] at every clock reading
    before the renewal's plus 24 hours, and at none from then on, whatever
    the expiration of the record was before. *)
Theorem renewal_opens_session (st st' : Store) (h : option pystr)
    (d : Draws) (body : json) (t : pystr) :
  wf st ->
  app.update_session st h d = Ok ((body, 200), st') ->
  get "session_token" body = Some (JStr t) ->
  forall now_check now_set,
    fst (app.logout st' (Some (lit "Bearer " ++ t)%list) now_check now_set)
    = (app.message "User has successfully logged out", 200)
    <-> now_check < clock d + 24 * 3600 * 1000000.
Proof.
  intros W U G nc ns.
  assert (Ge : get "error" body = None).
  { revert U G. unfold app.update_session, users_dao.renew_session.
    destruct (app.extract_token h) as [err|tk] eqn:E.
    - intros [= <- _] G. apply extract_token_error in E.
      destruct E; subst; discriminate.
    - destruct (users_dao.get_user_by_update_token st tk) as [user|];
        [|intros [= <- _]; discriminate].
      destruct (token_clash st (User.renew_session user d));
        [discriminate|]. now intros [= <- _]. }
  destruct (update_session_success _ _ _ _ _ _ W U Ge)
    as (tk & user & l1 & l2 & _ & _ & _ & _ & -> & -> & -> & _ & C).
  remember (User.renew_session user d) as user' eqn:R.
  cbn in G. injection G as <-. subst user'.
  destruct (renewed_row_lookup l1 l2 user d W C) as [F _].
  assert (E : app.extract_token
                (Some (lit "Bearer "
                         ++ session_token (User.renew_session user d))%list)
              = inr (session_token (User.renew_session user d)))
    by apply (bearer_urlsafe (urandom_session d)).
  rewrite (logout_accepts_row _ _ _ nc ns E F).
  simpl. unfold timedelta_days. lia.
Qed.

Lemma renewal_opens_session_witness :
  wf store_out
  /\ app.update_session store_out (bearer (update_token alice)) draws_b
     = Ok ((JDict (app.tokens_body (User.renew_session alice draws_b)), 200),
           [User.renew_session alice draws_b])
  /\ get "session_token"
       (JDict (app.tokens_body (User.renew_session alice draws_b)))
     = Some (JStr (session_token (User.renew_session alice draws_b)))
  /\ forall now_check now_set,
       fst (app.logout [User.renew_session alice draws_b]
              (Some (lit "Bearer "
                       ++ session_token (User.renew_session alice draws_b))
                    %list)
              now_check now_set)
       = (app.message "User has successfully logged out", 200)
       <-> now_check < clock draws_b + 24 * 3600 * 1000000.
Proof.
  assert (W : wf store_out) by (apply wfb_sound; vm_compute; reflexivity).
  assert (U : app.update_session store_out (bearer (update_token alice))
                draws_b
              = Ok ((JDict (app.tokens_body
                              (User.renew_session alice draws_b)), 200),
                    [User.renew_session alice draws_b]))
    by (vm_compute; reflexivity).
  split; [exact W|]. split; [exact U|]. split; [reflexivity|].
  exact (renewal_opens_session _ _ _ _ _ _ W U eq_refl).
Defined.



(** X14: a successful renewal retires the session token it replaces.
    Provided the new session token differs from the old one, no record is
    found by the old token afterwards, and a logout presenting it is
    answered [Invalid session token] with status 400. *)
Theorem renewal_retires_session_token (st st' : Store) (h h' : option pystr)
    (t : pystr) (user : User) (d : Draws) (body : json)
    (now_check now_set : datetime) :
  wf st ->
  app.extract_token h = inr t ->
  users_dao.get_user_by_update_token st t = Some user ->
  app.update_session st h d = Ok ((body, 200), st') ->
  get "error" body = None ->
  Sha1.hexdigest (urandom_session d) <> session_token user ->
  app.extract_token h' = inr (session_token user) ->
  users_dao.get_user_by_session_token st' (session_token user) = None
  /\ app.logout st' h' now_check now_set
     = ((app.error "Invalid session token", 400), st').
Proof.
  intros W E F U G Fresh E'.
  destruct (update_session_success _ _ _ _ _ _ W U G)
    as (t0 & u & l1 & l2 & E0 & F0 & _ & _ & -> & -> & _ & _ & C).
  rewrite E in E0. injection E0 as <-. rewrite F in F0. injection F0 as <-.
  destruct (renewed_row_lookup l1 l2 user d W C) as [_ K].
  assert (N : users_dao.get_user_by_session_token
                (l1 ++ User.renew_session user d :: l2) (session_token user)
              = None).
  { apply find_none_all. intros r I. apply pystr_eqb_neq.
    apply in_app_or in I. destruct I as [I|[<-|I]].
    - apply K, in_or_app. now left.
    - exact Fresh.
    - apply K, in_or_app. now right. }
  split; [exact N|]. unfold app.logout. now rewrite E', N.
Qed.

Lemma renewal_retires_session_token_witness :
  wf store_a
  /\ app.extract_token (bearer (update_token alice))
     = inr (update_token alice)
  /\ users_dao.get_user_by_update_token store_a (update_token alice)
     = Some alice
  /\ app.update_session store_a (bearer (update_token alice)) draws_b
     = Ok ((JDict (app.tokens_body (User.renew_session alice draws_b)), 200),
           [User.renew_session alice draws_b])
  /\ get "error" (JDict (app.tokens_body (User.renew_session alice draws_b)))
     = None
  /\ Sha1.hexdigest (urandom_session draws_b) <> session_token alice
  /\ app.extract_token (bearer (session_token alice))
     = inr (session_token alice)
  /\ users_dao.get_user_by_session_token [User.renew_session alice draws_b]
       (session_token alice) = None
  /\ app.logout [User.renew_session alice draws_b]
       (bearer (session_token alice)) 6000 6001
     = ((app.error "Invalid session token", 400),
        [User.renew_session alice draws_b]).
Proof.
  assert (E : app.extract_token (bearer (update_token alice))
              = inr (update_token alice)) by (vm_compute; reflexivity).
  assert (F : users_dao.get_user_by_update_token store_a (update_token alice)
              = Some alice) by (vm_compute; reflexivity).
  assert (U : app.update_session store_a (bearer (update_token alice)) draws_b
              = Ok ((JDict (app.tokens_body
                              (User.renew_session alice draws_b)), 200),
                    [User.renew_session alice draws_b]))
    by (vm_compute; reflexivity).
  assert (N : Sha1.hexdigest (urandom_session draws_b) <> session_token alice)
    by (vm_compute; discriminate).
  assert (E' : app.extract_token (bearer (session_token alice))
               = inr (session_token alice)) by (vm_compute; reflexivity).
  split; [exact wf_store_a|]. split; [exact E|]. split; [exact F|].
  split; [exact U|]. split; [reflexivity|]. split; [exact N|].
  split; [exact E'|].
  exact (renewal_retires_session_token store_a _ _ _ _ alice draws_b _
           6000 6001 wf_store_a E F U eq_refl N E').
Defined.

(** ** The user routes *)

Lemma query_user_split (st : Store) (i : Z) (user : User) :
  app.query_user st i = Some user ->
  id user = Some i
  /\ exists l1 l2, st = (l1 ++ user :: l2)%list
                   /\ forall row, In row l1 -> id row <> Some i.
Proof.
  intros Q. destruct (find_split _ _ _ Q) as (l1 & l2 & -> & P & Pl).
  apply id_eqb_eq in P. split; [exact P|]. exists l1, l2.
  split; [reflexivity|]. intros row I E.
  specialize (Pl row I). cbv beta in Pl. rewrite E, id_eqb_refl in Pl.
  discriminate.
Qed.

Lemma query_user_app (l1 l2 : list User) (user : User) (i : Z) :
  (forall row, In row l1 -> id row <> Some i) ->
  app.query_user (l1 ++ user :: l2) i
  = if id_eqb (id user) (Some i) then Some user else app.query_user l2 i.
Proof.
  intros N. unfold app.query_user. rewrite find_app_skip; [reflexivity|].
  intros y I. apply id_eqb_neq. now apply N.
Qed.

(** The record [update_user_by_id] flushes. *)
Lemma updated_fields (user : User) (body : app.update_body) :
  let user' :=
    app.assign set_available
      (app.assign set_owner
         (app.assign set_host
            (app.assign set_contact
               (app.assign set_bio user (app.u_bio body))
               (app.u_contact body))
            (app.u_host body))
         (app.u_owner body))
      (app.u_available body) in
  id user' = id user /\ name user' = name user
  /\ username user' = username user
  /\ overall_rating user' = overall_rating user
  /\ reviews user' = reviews user
  /\ categories_h user' = categories_h user
  /\ categories_o user' = categories_o user
  /\ email user' = email user /\ password_digest user' = password_digest user
  /\ session_token user' = session_token user
  /\ session_expiration user' = session_expiration user
  /\ update_token user' = update_token user
  /\ bio user' = match app.u_bio body with
                 | Some b => Some b
                 | None => bio user
                 end
  /\ contact user' = match app.u_contact body with
                     | Some c => c
                     | None => contact user
                     end
  /\ host user' = match app.u_host body with
                  | Some b => Some b
                  | None => host user
                  end
  /\ owner user' = match app.u_owner body with
                   | Some b => Some b
                   | None => owner user
                   end
  /\ available user' = match app.u_available body with
                       | Some b => Some b
                       | None => available user
                       end.
Proof.
  destruct body as [[b|] [c|] [h|] [o|] [a|]]; repeat split.
Qed.

Lemma update_user_by_id_found (st : Store) (i : Z) (body : app.update_body)
    (user : User) (l1 l2 : list User) :
  wf st -> st = (l1 ++ user :: l2)%list ->
  app.query_user st i = Some user ->
  let user' :=
    app.assign set_available
      (app.assign set_owner
         (app.assign set_host
            (app.assign set_contact
               (app.assign set_bio user (app.u_bio body))
               (app.u_contact body))
            (app.u_host body))
         (app.u_owner body))
      (app.u_available body) in
  app.update_user_by_id st i body
  = ((User.serialize user', 201), (l1 ++ user' :: l2)%list).
Proof.
  intros W -> Q user'. unfold app.update_user_by_id. rewrite Q.
  unfold app.success_response. f_equal.
  apply update_row_split; [apply (wf_key _ W)|].
  apply (updated_fields user body).
Qed.

(** X15: an update answered 201 rewrote the one row with the given key and
    no other.  In that row it changed at most [bio], [contact], [host],
    [owner] and [available], each to the value of the body when the body
    has one and not at all otherwise; the key, the names, the rating, the
    reviews, the categories, the email, the digest and the whole session
    triple are as before.  The answer is the serialization of the new
    row. *)
Theorem update_user_by_id_frame (st st' : Store) (i : Z)
    (body : app.update_body) (answer : json) :
  wf st ->
  app.update_user_by_id st i body = ((answer, 201), st') ->
  exists user user' l1 l2,
    st = (l1 ++ user :: l2)%list /\ st' = (l1 ++ user' :: l2)%list
    /\ id user = Some i /\ answer = User.serialize user'
    /\ id user' = id user /\ name user' = name user
    /\ username user' = username user
    /\ overall_rating user' = overall_rating user
    /\ reviews user' = reviews user
    /\ categories_h user' = categories_h user
    /\ categories_o user' = categories_o user
    /\ email user' = email user
    /\ password_digest user' = password_digest user
    /\ session_token user' = session_token user
    /\ session_expiration user' = session_expiration user
    /\ update_token user' = update_token user
    /\ bio user' = match app.u_bio body with
                   | Some b => Some b
                   | None => bio user
                   end
    /\ contact user' = match app.u_contact body with
                       | Some c => c
                       | None => contact user
                       end
    /\ host user' = match app.u_host body with
                    | Some b => Some b
                    | None => host user
                    end
    /\ owner user' = match app.u_owner body with
                     | Some b => Some b
                     | None => owner user
                     end
    /\ available user' = match app.u_available body with
                         | Some b => Some b
                         | None => available user
                         end.
Proof.
  intros W U.
  destruct (app.query_user st i) as [user|] eqn:Q.
  2:{ unfold app.update_user_by_id in U. rewrite Q in U. discriminate. }
  destruct (query_user_split _ _ _ Q) as (Ei & l1 & l2 & E & _).
  rewrite (update_user_by_id_found st i body user l1 l2 W E Q) in U.
  injection U as <- <-.
  eexists user, _, l1, l2.
  split; [exact E|]. split; [reflexivity|]. split; [exact Ei|].
  split; [reflexivity|]. apply (updated_fields user body).
Qed.

Lemma wf_store_ab : wf store_ab.
Proof. apply wfb_sound. vm_compute. reflexivity. Qed.

Lemma update_user_by_id_frame_witness :
  wf store_ab
  /\ app.update_user_by_id store_ab 1 sample_update
     = ((User.serialize
           (set_available (set_bio alice (lit "likes cats")) false), 201),
        [set_available (set_bio alice (lit "likes cats")) false; bob])
  /\ exists user user' l1 l2,
       store_ab = (l1 ++ user :: l2)%list
       /\ [set_available (set_bio alice (lit "likes cats")) false; bob]
          = (l1 ++ user' :: l2)%list
       /\ id user = Some 1
       /\ User.serialize
            (set_available (set_bio alice (lit "likes cats")) false)
          = User.serialize user'
       /\ id user' = id user /\ name user' = name user
       /\ username user' = username user
       /\ overall_rating user' = overall_rating user
       /\ reviews user' = reviews user
       /\ categories_h user' = categories_h user
       /\ categories_o user' = categories_o user
       /\ email user' = email user
       /\ password_digest user' = password_digest user
       /\ session_token user' = session_token user
       /\ session_expiration user' = session_expiration user
       /\ update_token user' = update_token user
       /\ bio user' = match app.u_bio sample_update with
                      | Some b => Some b
                      | None => bio user
                      end
       /\ contact user' = match app.u_contact sample_update with
                          | Some c => c
                          | None => contact user
                          end
       /\ host user' = match app.u_host sample_update with
                       | Some b => Some b
                       | None => host user
                       end
       /\ owner user' = match app.u_owner sample_update with
                        | Some b => Some b
                        | None => owner user
                        end
       /\ available user' = match app.u_available sample_update with
                            | Some b => Some b
                            | None => available user
                            end.
Proof.
  assert (U : app.update_user_by_id store_ab 1 sample_update
              = ((User.serialize
                    (set_available (set_bio alice (lit "likes cats")) false),
                  201),
                 [set_available (set_bio alice (lit "likes cats")) false;
                  bob])) by (vm_compute; reflexivity).
  split; [exact wf_store_ab|]. split; [exact U|].
  exact (update_user_by_id_frame _ _ _ _ _ wf_store_ab U).
Defined.

Lemma assign_again (user : User) (body : app.update_body) :
  let step u :=
    app.assign set_available
      (app.assign set_owner
         (app.assign set_host
            (app.assign set_contact
               (app.assign set_bio u (app.u_bio body))
               (app.u_contact body))
            (app.u_host body))
         (app.u_owner body))
      (app.u_available body) in
  step (step user) = step user.
Proof. destruct body as [[b|] [c|] [h|] [o|] [a|]]; reflexivity. Qed.

Lemma wf_same_columns (st st' : Store) :
  map id st' = map id st -> map email st' = map email st ->
  map session_token st' = map session_token st ->
  map update_token st' = map update_token st ->
  wf st -> wf st'.
Proof.
  intros Ei Ee Es Eu [Hi Hk He Hs Hu].
  constructor; rewrite ?Ei, ?Ee, ?Es, ?Eu; try assumption.
  intros row I E. apply (in_map id) in I. rewrite Ei, E in I.
  apply in_map_iff in I. destruct I as (r & Er & Ir). now apply (Hi r).
Qed.

Lemma update_user_by_id_wf (st : Store) (i : Z) (body : app.update_body) :
  wf st -> wf (snd (app.update_user_by_id st i body)).
Proof.
  intros W. destruct (app.query_user st i) as [user|] eqn:Q.
  2:{ unfold app.update_user_by_id. now rewrite Q. }
  destruct (query_user_split _ _ _ Q) as (_ & l1 & l2 & E & _).
  rewrite (update_user_by_id_found st i body user l1 l2 W E Q). simpl.
  destruct (updated_fields user body)
    as (Hi & _ & _ & _ & _ & _ & _ & He & _ & Hs & _ & Hu & _).
  subst st. now apply (wf_replace_same l1 l2 user).
Qed.

(** X16: an update is idempotent.  Sending the same body to the same key a
    second time gives the answer of the first time and leaves the table as
    the first update left it. *)
Theorem update_user_by_id_idempotent (st : Store) (i : Z)
    (body : app.update_body) :
  wf st ->
  app.update_user_by_id (snd (app.update_user_by_id st i body)) i body
  = (fst (app.update_user_by_id st i body),
     snd (app.update_user_by_id st i body)).
Proof.
  intros W. destruct (app.query_user st i) as [user|] eqn:Q.
  2:{ unfold app.update_user_by_id. rewrite Q. simpl. now rewrite Q. }
  destruct (query_user_split _ _ _ Q) as (Ei & l1 & l2 & E & N).
  pose proof (update_user_by_id_wf st i body W) as W'.
  rewrite (update_user_by_id_found st i body user l1 l2 W E Q) in *.
  cbn [fst snd] in *.
  match goal with
  | |- app.update_user_by_id (l1 ++ ?u :: l2) i body = _ =>
      assert (Q' : app.query_user (l1 ++ u :: l2) i = Some u)
  end.
  { rewrite (query_user_app l1 l2 _ i N).
    destruct (updated_fields user body) as (Hi & _). cbv zeta in Hi.
    now rewrite Hi, Ei, id_eqb_refl. }
  rewrite (update_user_by_id_found _ i body _ l1 l2 W' eq_refl Q').
  cbv zeta. now rewrite (assign_again user body).
Qed.

Lemma update_user_by_id_idempotent_witness :
  wf store_ab
  /\ app.update_user_by_id
       (snd (app.update_user_by_id store_ab 1 sample_update)) 1 sample_update
     = (fst (app.update_user_by_id store_ab 1 sample_update),
        snd (app.update_user_by_id store_ab 1 sample_update)).
Proof.
  split; [exact wf_store_ab|].
  exact (update_user_by_id_idempotent store_ab 1 sample_update wf_store_ab).
Defined.

(** X17: after an update answered 201, [get_user] on the same key answers
    with the body the update answered, and on every other key it answers
    as it did before the update. *)
Theorem update_then_get (st st' : Store) (i : Z) (body : app.update_body)
    (answer : json) :
  wf st ->
  app.update_user_by_id st i body = ((answer, 201), st') ->
  app.get_user st' i = (answer, 200)
  /\ forall j, j <> i -> app.get_user st' j = app.get_user st j.
Proof.
  intros W U.
  destruct (app.query_user st i) as [user|] eqn:Q.
  2:{ unfold app.update_user_by_id in U. rewrite Q in U. discriminate. }
  destruct (query_user_split _ _ _ Q) as (Ei & l1 & l2 & E & N).
  rewrite (update_user_by_id_found st i body user l1 l2 W E Q) in U.
  cbv zeta in U. injection U as <- <-.
  destruct (updated_fields user body) as (Hi & _). cbv zeta in Hi.
  split.
  - unfold app.get_user. rewrite (query_user_app l1 l2 _ i N).
    now rewrite Hi, Ei, id_eqb_refl.
  - intros j Nj. unfold app.get_user, app.query_user. subst st.
    assert (K : forall u : User, id u = Some i ->
                  id_eqb (id u) (Some j) = false).
    { intros u Eu. apply id_eqb_neq. rewrite Eu. congruence. }
    rewrite (find_replace _ l1 l2 user); [reflexivity| |].
    + now apply K.
    + apply K. now rewrite Hi.
Qed.

Lemma update_then_get_witness :
  wf store_ab
  /\ app.update_user_by_id store_ab 1 sample_update
     = ((User.serialize
           (set_available (set_bio alice (lit "likes cats")) false), 201),
        [set_available (set_bio alice (lit "likes cats")) false; bob])
  /\ app.get_user
       [set_available (set_bio alice (lit "likes cats")) false; bob] 1
     = (User.serialize
          (set_available (set_bio alice (lit "likes cats")) false), 200)
  /\ forall j, j <> 1 ->
       app.get_user
         [set_available (set_bio alice (lit "likes cats")) false; bob] j
       = app.get_user store_ab j.
Proof.
  assert (U : app.update_user_by_id store_ab 1 sample_update
              = ((User.serialize
                    (set_available (set_bio alice (lit "likes cats")) false),
                  201),
                 [set_available (set_bio alice (lit "likes cats")) false;
                  bob])) by (vm_compute; reflexivity).
  split; [exact wf_store_ab|]. split; [exact U|].
  exact (update_then_get _ _ _ _ _ wf_store_ab U).
Defined.

(** *** Deletion *)

Lemma delete_row_split (l1 l2 : list User) (u : User) :
  NoDup (map id (l1 ++ u :: l2)) ->
  delete_row (l1 ++ u :: l2) u = (l1 ++ l2)%list.
Proof.
  intros ND. rewrite map_app in ND. simpl in ND.
  assert (K : forall l, (forall r, In r l -> id r <> id u) ->
                        filter (fun row => negb (id_eqb (id row) (id u))) l
                        = l).
  { induction l as [|a l IH]; simpl; intros H; [reflexivity|].
    rewrite id_eqb_neq by (apply H; now left). simpl.
    f_equal. apply IH. intros r I. apply H. now right. }
  unfold delete_row. rewrite filter_app. simpl.
  rewrite id_eqb_refl. simpl. rewrite !K; [reflexivity| |].
  - intros r I. apply (NoDup_app_cons_r _ _ _ _ ND). now apply in_map.
  - intros r I. apply (NoDup_app_cons_l _ _ _ _ ND). now apply in_map.
Qed.

Lemma NoDup_remove_mid {A : Type} (l1 l2 : list A) (x : A) :
  NoDup (l1 ++ x :: l2) -> NoDup (l1 ++ l2).
Proof. apply NoDup_remove_1. Qed.

Lemma wf_remove (l1 l2 : list User) (u : User) :
  wf (l1 ++ u :: l2) -> wf (l1 ++ l2).
Proof.
  intros [Hi Hk He Hs Hu].
  rewrite map_app in Hk, He, Hs, Hu. simpl in Hk, He, Hs, Hu.
  constructor; rewrite ?map_app; try (eapply NoDup_remove_mid; eassumption).
  intros row I. apply Hi. apply in_app_or in I. apply in_or_app.
  simpl. tauto.
Qed.

Lemma delete_user_found (st : Store) (i : Z) (user : User)
    (l1 l2 : list User) :
  wf st -> st = (l1 ++ user :: l2)%list ->
  app.query_user st i = Some user ->
  app.delete_user st i = ((User.serialize user, 200), (l1 ++ l2)%list).
Proof.
  intros W -> Q. unfold app.delete_user. rewrite Q.
  unfold app.success_response. f_equal.
  apply delete_row_split, (wf_key _ W).
Qed.

Lemma delete_user_wf (st : Store) (i : Z) :
  wf st -> wf (snd (app.delete_user st i)).
Proof.
  intros W. destruct (app.query_user st i) as [user|] eqn:Q.
  2:{ unfold app.delete_user. now rewrite Q. }
  destruct (query_user_split _ _ _ Q) as (_ & l1 & l2 & E & _).
  rewrite (delete_user_found st i user l1 l2 W E Q). simpl.
  subst st. now apply (wf_remove l1 l2 user).
Qed.

(** X18: a deletion answered 200 removed the one row with the given key and
    no other, and answered with its serialization.  Afterwards [get_user]
    on that key answers [User not found] with status 404, and on every
    other key it answers as before. *)
Theorem delete_user_removes (st st' : Store) (i : Z) (answer : json) :
  wf st ->
  app.delete_user st i = ((answer, 200), st') ->
  (exists user l1 l2,
      st = (l1 ++ user :: l2)%list /\ st' = (l1 ++ l2)%list
      /\ id user = Some i /\ answer = User.serialize user)
  /\ app.get_user st' i = (app.error "User not found", 404)
  /\ forall j, j <> i -> app.get_user st' j = app.get_user st j.
Proof.
  intros W D.
  destruct (app.query_user st i) as [user|] eqn:Q.
  2:{ unfold app.delete_user in D. rewrite Q in D. discriminate. }
  destruct (query_user_split _ _ _ Q) as (Ei & l1 & l2 & E & N).
  rewrite (delete_user_found st i user l1 l2 W E Q) in D.
  injection D as <- <-.
  split; [now exists user, l1, l2|].
  pose proof (wf_key _ W) as ND. rewrite E, map_app in ND. simpl in ND.
  split.
  - unfold app.get_user, app.query_user. rewrite find_none_all; [reflexivity|].
    intros y I. apply id_eqb_neq. rewrite <- Ei.
    apply in_app_or in I. destruct I as [I|I].
    + apply (NoDup_app_cons_l _ _ _ _ ND). now apply in_map.
    + apply (NoDup_app_cons_r _ _ _ _ ND). now apply in_map.
  - intros j Nj. unfold app.get_user, app.query_user. subst st.
    assert (K : id_eqb (id user) (Some j) = false)
      by (apply id_eqb_neq; rewrite Ei; congruence).
    clear - K. induction l1 as [|a l1 IH]; simpl.
    + now rewrite K.
    + destruct (id_eqb (id a) (Some j)); [reflexivity|exact IH].
Qed.

Lemma delete_user_removes_witness :
  wf store_ab
  /\ app.delete_user store_ab 1 = ((User.serialize alice, 200), [bob])
  /\ (exists user l1 l2,
         store_ab = (l1 ++ user :: l2)%list /\ [bob] = (l1 ++ l2)%list
         /\ id user = Some 1 /\ User.serialize alice = User.serialize user)
  /\ app.get_user [bob] 1 = (app.error "User not found", 404)
  /\ forall j, j <> 1 -> app.get_user [bob] j = app.get_user store_ab j.
Proof.
  assert (D : app.delete_user store_ab 1
              = ((User.serialize alice, 200), [bob]))
    by (vm_compute; reflexivity).
  split; [exact wf_store_ab|]. split; [exact D|].
  exact (delete_user_removes _ _ _ _ wf_store_ab D).
Defined.

(** X19: deleting a user ends that user's sessions.  After a deletion
    answered 200, neither token of the deleted record finds a record: a
    logout presenting its session token is answered
    [Invalid session token] with status 400, and a renewal presenting its
    update token is answered [Invalid update token]. *)
Theorem delete_user_ends_session (st st' : Store) (i : Z) (user : User)
    (answer : json) (h h' : option pystr) (now_check now_set : datetime)
    (d : Draws) :
  wf st ->
  app.query_user st i = Some user ->
  app.delete_user st i = ((answer, 200), st') ->
  app.extract_token h = inr (session_token user) ->
  app.extract_token h' = inr (update_token user) ->
  app.logout st' h now_check now_set
  = ((app.error "Invalid session token", 400), st')
  /\ app.update_session st' h' d
     = Ok ((app.error "Invalid update token", 200), st').
Proof.
  intros W Q D E E'.
  destruct (query_user_split _ _ _ Q) as (Ei & l1 & l2 & Es & _).
  rewrite (delete_user_found st i user l1 l2 W Es Q) in D.
  injection D as _ <-. subst st.
  pose proof (wf_session_token _ W) as Ns.
  pose proof (wf_update_token _ W) as Nu.
  rewrite map_app in Ns, Nu. simpl in Ns, Nu.
  assert (F : users_dao.get_user_by_session_token (l1 ++ l2)
                (session_token user) = None).
  { apply find_none_all. intros y I. apply pystr_eqb_neq.
    apply in_app_or in I. destruct I as [I|I].
    - apply (NoDup_app_cons_l _ _ _ _ Ns). now apply in_map.
    - apply (NoDup_app_cons_r _ _ _ _ Ns). now apply in_map. }
  assert (G : users_dao.get_user_by_update_token (l1 ++ l2)
                (update_token user) = None).
  { apply find_none_all. intros y I. apply pystr_eqb_neq.
    apply in_app_or in I. destruct I as [I|I].
    - apply (NoDup_app_cons_l _ _ _ _ Nu). now apply in_map.
    - apply (NoDup_app_cons_r _ _ _ _ Nu). now apply in_map. }
  split.
  - unfold app.logout. now rewrite E, F.
  - unfold app.update_session, users_dao.renew_session. now rewrite E', G.
Qed.

Lemma delete_user_ends_session_witness :
  wf store_ab
  /\ app.query_user store_ab 1 = Some alice
  /\ app.delete_user store_ab 1 = ((User.serialize alice, 200), [bob])
  /\ app.extract_token (bearer (session_token alice))
     = inr (session_token alice)
  /\ app.extract_token (bearer (update_token alice))
     = inr (update_token alice)
  /\ app.logout [bob] (bearer (session_token alice)) 2000 2001
     = ((app.error "Invalid session token", 400), [bob])
  /\ app.update_session [bob] (bearer (update_token alice)) draws_a
     = Ok ((app.error "Invalid update token", 200), [bob]).
Proof.
  assert (Q : app.query_user store_ab 1 = Some alice)
    by (vm_compute; reflexivity).
  assert (D : app.delete_user store_ab 1
              = ((User.serialize alice, 200), [bob]))
    by (vm_compute; reflexivity).
  assert (E : app.extract_token (bearer (session_token alice))
              = inr (session_token alice)) by (vm_compute; reflexivity).
  assert (E' : app.extract_token (bearer (update_token alice))
               = inr (update_token alice)) by (vm_compute; reflexivity).
  split; [exact wf_store_ab|]. split; [exact Q|]. split; [exact D|].
  split; [exact E|]. split; [exact E'|].
  exact (delete_user_ends_session _ _ _ _ _ _ _ 2000 2001 draws_a
           wf_store_ab Q D E E').
Defined.

(** *** The list of available hosts *)

Lemma serialize_id (u v : User) :
  User.serialize u = User.serialize v -> id u = id v.
Proof.
  unfold User.serialize. intros [= E _].
  destruct (id u) as [x|], (id v) as [y|]; simpl in E;
    congruence.
Qed.

(** X20: after an update answered 201 that sets [available], the updated
    user is among the entries [get_available_users] lists exactly when the
    flag was set to true. *)
Theorem update_available_listed (st st' : Store) (i : Z)
    (body : app.update_body) (answer : json) (a : bool) :
  wf st ->
  app.u_available body = Some a ->
  app.update_user_by_id st i body = ((answer, 201), st') ->
  In answer (listed "available hosts" (app.get_available_users st'))
  <-> a = true.
Proof.
  intros W A U.
  pose proof (update_user_by_id_wf st i body W) as W'.
  rewrite U in W'. cbn [snd] in W'.
  destruct (app.query_user st i) as [user|] eqn:Q.
  2:{ unfold app.update_user_by_id in U. rewrite Q in U. discriminate. }
  destruct (query_user_split _ _ _ Q) as (Ei & l1 & l2 & E & N).
  rewrite (update_user_by_id_found st i body user l1 l2 W E Q) in U.
  cbv zeta in U. injection U as <- <-.
  destruct (updated_fields user body)
    as (_ & _ & _ & _ & _ & _ & _ & _ & _ & _ & _ & _ & _ & _ & _ & _ & Ha).
  cbv zeta in Ha.
  remember (app.assign set_available _ _) as user' eqn:R in *. clear R.
  rewrite A in Ha.
  change (listed "available hosts"
            (app.get_available_users (l1 ++ user' :: l2)))
    with (map User.serialize
            (filter (fun row => match available row with
                                | Some true => true
                                | _ => false
                                end) (l1 ++ user' :: l2))).
  rewrite in_map_iff. split.
  - intros (row & S & I). apply filter_In in I. destruct I as [I P].
    apply serialize_id in S.
    assert (row = user').
    { apply (NoDup_map_eq id (l1 ++ user' :: l2)); auto using wf_key.
      apply in_or_app. right. now left. }
    subst row. rewrite Ha in P. now destruct a.
  - intros ->. exists user'. split; [reflexivity|].
    apply filter_In. split; [apply in_or_app; right; now left|].
    now rewrite Ha.
Qed.

Lemma update_available_listed_witness :
  wf store_ab
  /\ app.u_available sample_update = Some false
  /\ app.update_user_by_id store_ab 1 sample_update
     = ((User.serialize
           (set_available (set_bio alice (lit "likes cats")) false), 201),
        [set_available (set_bio alice (lit "likes cats")) false; bob])
  /\ (In (User.serialize
            (set_available (set_bio alice (lit "likes cats")) false))
         (listed "available hosts"
            (app.get_available_users
               [set_available (set_bio alice (lit "likes cats")) false;
                bob]))
      <-> false = true).
Proof.
  assert (U : app.update_user_by_id store_ab 1 sample_update
              = ((User.serialize
                    (set_available (set_bio alice (lit "likes cats")) false),
                  201),
                 [set_available (set_bio alice (lit "likes cats")) false;
                  bob])) by (vm_compute; reflexivity).
  split; [exact wf_store_ab|]. split; [reflexivity|]. split; [exact U|].
  exact (update_available_listed store_ab _ 1 sample_update _ false
           wf_store_ab eq_refl U).
Defined.

(** *** The user routes and the credentials *)

Lemma same_profile_serialize_all (st1 st2 : Store) :
  Forall2 same_profile st1 st2 ->
  map User.serialize st1 = map User.serialize st2.
Proof.
  induction 1 as [|u v l1 l2 P F IH]; simpl; [reflexivity|].
  now rewrite (serialize_same_profile u v P), IH.
Qed.

Lemma same_profile_query (st1 st2 : Store) (i : Z) :
  Forall2 same_profile st1 st2 ->
  match app.query_user st1 i, app.query_user st2 i with
  | Some u, Some v => same_profile u v
  | None, None => True
  | _, _ => False
  end.
Proof.
  intros F. unfold app.query_user. apply find_related; [|exact F].
  intros x y P. destruct P as (Hid & _). now rewrite Hid.
Qed.

Lemma same_profile_available (st1 st2 : Store) :
  Forall2 same_profile st1 st2 ->
  Forall2 same_profile
    (filter (fun row => match available row with
                        | Some true => true
                        | _ => false
                        end) st1)
    (filter (fun row => match available row with
                        | Some true => true
                        | _ => false
                        end) st2).
Proof.
  induction 1 as [|u v l1 l2 P F IH]; simpl; [constructor|].
  assert (A : available u = available v) by apply P.
  rewrite A. destruct (available v) as [[|]|]; auto.
Qed.

Lemma same_profile_updated (u v : User) (body : app.update_body) :
  same_profile u v ->
  same_profile
    (app.assign set_available
       (app.assign set_owner
          (app.assign set_host
             (app.assign set_contact
                (app.assign set_bio u (app.u_bio body))
                (app.u_contact body))
             (app.u_host body))
          (app.u_owner body))
       (app.u_available body))
    (app.assign set_available
       (app.assign set_owner
          (app.assign set_host
             (app.assign set_contact
                (app.assign set_bio v (app.u_bio body))
                (app.u_contact body))
             (app.u_host body))
          (app.u_owner body))
       (app.u_available body)).
Proof.
  intros (Hid & Hn & Hu & Hb & Hc & Hr & Hrv & Hh & Ho & Hch & Hco & Ha).
  destruct body as [[b|] [c|] [h|] [o|] [a|]];
    repeat split; simpl; assumption.
Qed.

(** X21: no answer of a user route depends on a credential or a session
    field.  On two tables whose records agree on the profile fields, the
    answers of [get_users], [get_user], [get_available_users],
    [update_user_by_id], [delete_user] and [get_reviews_by_reviewee] are
    the same, whatever emails, digests, tokens and expirations the records
    hold. *)
Theorem user_routes_ignore_credentials (st1 st2 : Store) :
  Forall2 same_profile st1 st2 ->
  app.get_users st1 = app.get_users st2
  /\ app.get_available_users st1 = app.get_available_users st2
  /\ (forall i, app.get_user st1 i = app.get_user st2 i)
  /\ (forall i body, fst (app.update_user_by_id st1 i body)
                     = fst (app.update_user_by_id st2 i body))
  /\ (forall i, fst (app.delete_user st1 i) = fst (app.delete_user st2 i))
  /\ (forall i, app.get_reviews_by_reviewee st1 i
                = app.get_reviews_by_reviewee st2 i).
Proof.
  intros F. repeat apply conj.
  - unfold app.get_users. now rewrite (same_profile_serialize_all _ _ F).
  - unfold app.get_available_users.
    now rewrite (same_profile_serialize_all _ _
                   (same_profile_available _ _ F)).
  - intros i. unfold app.get_user.
    pose proof (same_profile_query st1 st2 i F) as K.
    destruct (app.query_user st1 i) as [u|],
             (app.query_user st2 i) as [v|]; try contradiction;
      [|reflexivity].
    now rewrite (serialize_same_profile u v K).
  - intros i body. unfold app.update_user_by_id.
    pose proof (same_profile_query st1 st2 i F) as K.
    destruct (app.query_user st1 i) as [u|],
             (app.query_user st2 i) as [v|]; try contradiction;
      [|reflexivity].
    cbn [fst].
    now rewrite (serialize_same_profile _ _ (same_profile_updated u v body K)).
  - intros i. unfold app.delete_user.
    pose proof (same_profile_query st1 st2 i F) as K.
    destruct (app.query_user st1 i) as [u|],
             (app.query_user st2 i) as [v|]; try contradiction;
      [|reflexivity].
    cbn [fst]. now rewrite (serialize_same_profile u v K).
  - intros i. unfold app.get_reviews_by_reviewee.
    pose proof (same_profile_query st1 st2 i F) as K.
    destruct (app.query_user st1 i) as [u|],
             (app.query_user st2 i) as [v|]; try contradiction;
      [|reflexivity].
    now rewrite (serialize_same_profile u v K).
Qed.

Lemma user_routes_ignore_credentials_witness :
  Forall2 same_profile store_a [alice_other_credentials]
  /\ app.get_users store_a = app.get_users [alice_other_credentials]
  /\ app.get_available_users store_a
     = app.get_available_users [alice_other_credentials]
  /\ (forall i, app.get_user store_a i
                = app.get_user [alice_other_credentials] i)
  /\ (forall i body,
         fst (app.update_user_by_id store_a i body)
         = fst (app.update_user_by_id [alice_other_credentials] i body))
  /\ (forall i, fst (app.delete_user store_a i)
                = fst (app.delete_user [alice_other_credentials] i))
  /\ (forall i, app.get_reviews_by_reviewee store_a i
                = app.get_reviews_by_reviewee [alice_other_credentials] i).
Proof.
  assert (P : same_profile alice alice_other_credentials)
    by (vm_compute; repeat split).
  assert (F : Forall2 same_profile store_a [alice_other_credentials])
    by (constructor; [exact P|constructor]).
  split; [exact F|].
  exact (user_routes_ignore_credentials _ _ F).
Defined.

(** ** The schema as an invariant of the whole service *)

Lemma serve_api_wf (lib : Bcrypt) (st : Store) (r : api_request) :
  wf st -> wf (serve_api st r).
Proof.
  intros W. destruct r as [r| |i| |i body|i|i]; simpl; try exact W.
  - now apply serve_wf.
  - now apply update_user_by_id_wf.
  - now apply delete_user_wf.
Qed.

Lemma run_api_wf (lib : Bcrypt) (rs : list api_request) (st : Store) :
  wf st -> wf (run_api st rs).
Proof.
  unfold run_api. revert st. induction rs as [|r rs IH]; simpl; intros st W.
  - exact W.
  - apply IH. now apply serve_api_wf.
Qed.

(** X22: whatever requests the session routes and the user routes serve,
    starting from the empty table, the table keeps the constraints of the
    schema: every row has a key, and no two rows share a key, an email, a
    session token or an update token. *)
Theorem reachable_tables_keep_schema (lib : Bcrypt)
    (rs : list api_request) :
  wf (run_api [] rs).
Proof.
  apply run_api_wf. constructor; simpl; try constructor. intros row [].
Qed.

(** ** Passwords that cannot be encoded *)





(** ** Registration seen through the other routes *)

(** X24: the user a registration answered 201 with can be read back:
    [get_user] on the key in the answer's [user] entry answers with that
    entry, and [get_users] lists it. *)
Theorem register_then_get_user (lib : Bcrypt) (st st' : Store)
    (body : app.register_body) (salt16 : bytes) (d : Draws) (r : json) :
  app.register_account st body salt16 d = Ok ((r, 201), st') ->
  exists i entry,
    get "user" r = Some entry
    /\ get "id" entry = Some (JInt i)
    /\ app.get_user st' i = (entry, 200)
    /\ In entry (listed "users" (app.get_users st')).
Proof.
  intros R. destruct (register_account_201 _ _ _ _ _ _ _ R)
    as (e & p & n & un & c & pw & digest & row
        & _ & _ & _ & _ & _ & _ & _ & _ & Er & _ & -> & ->).
  exists (next_id st), (User.serialize row).
  assert (Ei : id row = Some (next_id st)) by now rewrite Er.
  split; [reflexivity|]. split; [cbn; now rewrite Ei|]. split.
  - unfold app.get_user, app.query_user. rewrite find_app_skip.
    + cbn [find]. now rewrite Ei, id_eqb_refl.
    + intros y I. apply id_eqb_neq. intros E.
      pose proof (next_id_above st y _ I E). lia.
  - change (listed "users" (app.get_users (st ++ [row])))
      with (map User.serialize (st ++ [row])).
    apply in_map, in_or_app. right. now left.
Qed.

Lemma register_then_get_user_witness :
  @app.register_account sample_bcrypt [] alice_body (repeat x07 16) draws_a
  = Ok ((JDict (("user"%string, User.serialize alice)
                  :: app.tokens_body alice), 201), store_a)
  /\ exists i entry,
       get "user" (JDict (("user"%string, User.serialize alice)
                            :: app.tokens_body alice)) = Some entry
       /\ get "id" entry = Some (JInt i)
       /\ app.get_user store_a i = (entry, 200)
       /\ In entry (listed "users" (app.get_users store_a)).
Proof.
  assert (R : @app.register_account sample_bcrypt [] alice_body
                 (repeat x07 16) draws_a
              = Ok ((JDict (("user"%string, User.serialize alice)
                              :: app.tokens_body alice), 201), store_a))
    by (vm_compute; reflexivity).
  split; [exact R|].
  exact (register_then_get_user sample_bcrypt _ _ _ _ _ _ R).
Defined.

(** X25: an email can be registered once.  After a registration answered
    201, any registration with the same email, whatever its other fields
    and its password, is answered [Incorrect email or password] with
    status 400 and leaves the table as it was. *)
Theorem register_twice (lib : Bcrypt) (st st' : Store)
    (body body' : app.register_body) (salt16 salt16' : bytes)
    (d d' : Draws) (r : json) :
  app.register_account st body salt16 d = Ok ((r, 201), st') ->
  app.b_email body' = app.b_email body ->
  app.b_password body' <> None -> app.b_name body' <> None ->
  app.b_username body' <> None -> app.b_contact body' <> None ->
  app.register_account st' body' salt16' d'
  = Ok ((app.error "Incorrect email or password", 400), st').
Proof.
  intros R Ee Np Nn Nu Nc. destruct (register_account_201 _ _ _ _ _ _ _ R)
    as (e & p & n & un & c & pw & digest & row
        & Eb & _ & _ & _ & _ & _ & _ & _ & Er & C & -> & _).
  destruct (appended_row_lookups st row C) as (F & _ & _).
  assert (Em : email row = e) by now rewrite Er.
  rewrite Em in F.
  unfold app.register_account, users_dao.create_user.
  rewrite Ee, Eb.
  destruct (app.b_password body') as [p'|]; [|contradiction].
  destruct (app.b_name body') as [n'|]; [|contradiction].
  destruct (app.b_username body') as [un'|]; [|contradiction].
  destruct (app.b_contact body') as [c'|]; [|contradiction].
  cbn [User.kw_email]. now rewrite F.
Qed.

Lemma register_twice_witness :
  @app.register_account sample_bcrypt [] alice_body (repeat x07 16) draws_a
  = Ok ((JDict (("user"%string, User.serialize alice)
                  :: app.tokens_body alice), 201), store_a)
  /\ app.b_email alice_body = app.b_email alice_body
  /\ app.b_password alice_body <> None /\ app.b_name alice_body <> None
  /\ app.b_username alice_body <> None /\ app.b_contact alice_body <> None
  /\ @app.register_account sample_bcrypt store_a alice_body (repeat x09 16)
       draws_b
     = Ok ((app.error "Incorrect email or password", 400), store_a).
Proof.
  assert (R : @app.register_account sample_bcrypt [] alice_body
                 (repeat x07 16) draws_a
              = Ok ((JDict (("user"%string, User.serialize alice)
                              :: app.tokens_body alice), 201), store_a))
    by (vm_compute; reflexivity).
  assert (Np : app.b_password alice_body <> None) by discriminate.
  assert (Nn : app.b_name alice_body <> None) by discriminate.
  assert (Nu : app.b_username alice_body <> None) by discriminate.
  assert (Nc : app.b_contact alice_body <> None) by discriminate.
  split; [exact R|]. split; [reflexivity|]. split; [exact Np|].
  split; [exact Nn|]. split; [exact Nu|]. split; [exact Nc|].
  exact (register_twice sample_bcrypt _ _ _ alice_body _ (repeat x09 16) _
           draws_b _ R eq_refl Np Nn Nu Nc).
Defined.

(** ** Login after logout *)

(** X26: a login does not reopen a session that was logged out.  After a
    successful logout of a record, a login with its email and a password
    that verifies returns the record's old session token with the
    expiration the logout stored, and a logout presenting that token at
    that instant or later is answered [Invalid session token]. *)
Theorem login_after_logout (lib : Bcrypt) (st st' : Store)
    (h : option pystr) (t : pystr) (user : User) (p : pystr)
    (now_check now_set now now' : datetime) :
  wf st ->
  app.extract_token h = inr t ->
  users_dao.get_user_by_session_token st t = Some user ->
  app.logout st h now_check now_set
  = ((app.message "User has successfully logged out", 200), st') ->
  User.verify_password user p = Ok true ->
  now_set <= now ->
  app.login st' (Some (email user)) (Some p)
  = Ok ((JDict [ ("session_token", JStr t);
                 ("session_expiration", JDateTime now_set);
                 ("update_token", JStr (update_token user)) ]%string, 200),
        st')
  /\ app.logout st' h now now'
     = ((app.error "Invalid session token", 400), st').
Proof.
  intros W E F L V Le.
  destruct (logout_success _ _ _ _ _ W L)
    as (t0 & u & l1 & l2 & E0 & F0 & Et & _ & Pl & -> & ->).
  rewrite E in E0. injection E0 as <-. rewrite F in F0. injection F0 as <-.
  subst t.
  assert (Fe : users_dao.get_user_by_email
                 (l1 ++ set_session_expiration user now_set :: l2)
                 (email user)
               = Some (set_session_expiration user now_set)).
  { unfold users_dao.get_user_by_email. rewrite find_app_skip.
    - cbn [find]. now rewrite pystr_eqb_refl.
    - intros y I. apply pystr_eqb_neq.
      pose proof (wf_email _ W) as ND. rewrite map_app in ND.
      apply (NoDup_app_cons_l _ _ _ _ ND). now apply in_map. }
  assert (Fs : users_dao.get_user_by_session_token
                 (l1 ++ set_session_expiration user now_set :: l2)
                 (session_token user)
               = Some (set_session_expiration user now_set)).
  { unfold users_dao.get_user_by_session_token. rewrite find_app_skip.
    - cbn [find]. now rewrite pystr_eqb_refl.
    - intros y I. apply pystr_eqb_neq. now apply Pl. }
  split.
  - unfold app.login, users_dao.verify_credentials. rewrite Fe.
    change (User.verify_password (set_session_expiration user now_set) p)
      with (User.verify_password user p).
    rewrite V. reflexivity.
  - unfold app.logout. rewrite E, Fs.
    unfold User.verify_session_token. simpl.
    destruct (Z.ltb_spec now now_set); [lia|].
    now rewrite andb_false_r.
Qed.

Lemma login_after_logout_witness :
  wf store_a
  /\ app.extract_token (bearer (session_token alice))
     = inr (session_token alice)
  /\ users_dao.get_user_by_session_token store_a (session_token alice)
     = Some alice
  /\ app.logout store_a (bearer (session_token alice)) 2000 2001
     = ((app.message "User has successfully logged out", 200), store_out)
  /\ @User.verify_password sample_bcrypt alice (lit "pw123456") = Ok true
  /\ 2001 <= 3000
  /\ @app.login sample_bcrypt store_out (Some (email alice))
       (Some (lit "pw123456"))
     = Ok ((JDict [ ("session_token", JStr (session_token alice));
                    ("session_expiration", JDateTime 2001);
                    ("update_token", JStr (update_token alice)) ]%string,
            200), store_out)
  /\ app.logout store_out (bearer (session_token alice)) 3000 3001
     = ((app.error "Invalid session token", 400), store_out).
Proof.
  assert (E : app.extract_token (bearer (session_token alice))
              = inr (session_token alice)) by (vm_compute; reflexivity).
  assert (F : users_dao.get_user_by_session_token store_a
                (session_token alice) = Some alice)
    by (vm_compute; reflexivity).
  assert (L : app.logout store_a (bearer (session_token alice)) 2000 2001
              = ((app.message "User has successfully logged out", 200),
                 store_out)) by (vm_compute; reflexivity).
  assert (V : @User.verify_password sample_bcrypt alice (lit "pw123456")
              = Ok true) by (vm_compute; reflexivity).
  assert (T : 2001 <= 3000) by lia.
  split; [exact wf_store_a|]. split; [exact E|]. split; [exact F|].
  split; [exact L|]. split; [exact V|]. split; [exact T|].
  exact (login_after_logout sample_bcrypt store_a store_out _ _ alice _
           2000 2001 3000 3001 wf_store_a E F L V T).
Defined.
